(** * component.py: the [Component] base class and [BadComponentInit]

    A shallow embedding of [src/component.py].  A Python instance is its
    attribute dictionary ([__dict__]), a finite map from attribute names to
    values.  Dictionaries that are shared by reference (the value store a
    subclass returns from [savePreset], the preset dictionary handed to
    [loadPreset]) live in a heap and are named by a location.  Everything
    the base class does to the outside world (printing, calling the
    controller, the parent window or a subclass hook, emitting the
    [modified] signal) is recorded in a trace, and leaving the process with
    [quit] is an outcome of its own, distinct from returning and from
    raising. *)

From Stdlib Require Import String Ascii ZArith List.
From stdpp Require Import gmap strings pretty.

(** ** Values and memory *)

Module Py.

Definition loc := positive.

(** The Python values the base class handles.  Objects other than
    dictionaries (the controller, the parent window) are opaque references. *)
Inductive value :=
  | VNone
  | VBool (b : bool)
  | VInt (z : Z)
  | VStr (s : string)
  | VRef (l : loc).

#[global] Instance value_eq_dec : EqDecision value.
Proof. solve_decision. Defined.

Inductive exn :=
  | AttributeError (name : string)
  | KeyError (key : string)
  | TypeError
  | ValueError
  | OtherError (tag : string).

(** [quit(code)] raises [SystemExit(code)]; [quit()] passes [None]. *)
Inductive outcome (A : Type) :=
  | Ret (a : A)
  | Raise (e : exn)
  | Exit (code : option Z).
Arguments Ret {A} a.
Arguments Raise {A} e.
Arguments Exit {A} code.

(** The status the operating system sees for a [SystemExit] code. *)
Definition exit_status (code : option Z) : Z :=
  match code with Some z => z | None => 0%Z end.

(** Actions of the base class that are visible from outside. *)
Inductive event :=
  | EvPrint (text : string)
  | EvDrawPreview (parent : loc)
  | EvSavePreset
  | EvEmitModified (pos store : value)
  | EvGetPresetDir (core : loc)
  | EvOpenPreset (core : loc) (path : string) (pos : value) (name : string)
  | EvCommandHelp.

#[global] Instance event_eq_dec : EqDecision event.
Proof. solve_decision. Defined.

Record state := mkState {
  self : gmap string value;
  mem : gmap loc (gmap string value);
  trace : list event
}.

(** Code that is not in this file (subclass methods, the controller, the
    parent window) may read and change the instance and the heap, and may
    return, raise or quit.  It has no access to the trace. *)
Definition hook (A : Type) : Type :=
  gmap string value -> gmap loc (gmap string value) ->
  outcome A * gmap string value * gmap loc (gmap string value).

(** ** A state-and-outcome monad *)

Definition M (A : Type) : Type := state -> outcome A * state.

Definition ret {A} (a : A) : M A := fun st => (Ret a, st).

Definition bind {A B} (m : M A) (k : A -> M B) : M B :=
  fun st =>
    match m st with
    | (Ret a, st') => k a st'
    | (Raise e, st') => (Raise e, st')
    | (Exit c, st') => (Exit c, st')
    end.

Definition raise {A} (e : exn) : M A := fun st => (Raise e, st).

Definition quit {A} (code : option Z) : M A := fun st => (Exit code, st).

Definition emit (e : event) : M unit :=
  fun st => (Ret tt, mkState (self st) (mem st) (trace st ++ [e])).

Definition call {A} (e : event) (h : hook A) : M A :=
  fun st =>
    match h (self st) (mem st) with
    | (o, s', m') => (o, mkState s' m' (trace st ++ [e]))
    end.

Definition getattr (name : string) : M value :=
  fun st =>
    match self st !! name with
    | Some v => (Ret v, st)
    | None => (Raise (AttributeError name), st)
    end.

(** [self.name = v] for a name written out in the source, none of which is
    a slot of the object: an entry of the attribute dictionary. *)
Definition setattr (name : string) (v : value) : M unit :=
  fun st => (Ret tt, mkState (<[name := v]> (self st)) (mem st) (trace st)).

(** [d[key]] for a value [d]. *)
Definition getitem (d : value) (key : string) : M value :=
  fun st =>
    match d with
    | VRef l =>
        match mem st !! l with
        | Some m =>
            match m !! key with
            | Some v => (Ret v, st)
            | None => (Raise (KeyError key), st)
            end
        | None => (Raise TypeError, st)
        end
    | _ => (Raise TypeError, st)
    end.

(** [d[key] = v] for a value [d]: the dictionary is updated in place. *)
Definition setitem (d : value) (key : string) (v : value) : M unit :=
  fun st =>
    match d with
    | VRef l =>
        match mem st !! l with
        | Some m =>
            (Ret tt, mkState (self st) (<[l := <[key := v]> m]> (mem st)) (trace st))
        | None => (Raise TypeError, st)
        end
    | _ => (Raise TypeError, st)
    end.

End Py.

Import Py.

Notation "x <- m ;; k" := (bind m (fun x => k))
  (at level 100, m at next level, right associativity).
Notation "m ;;; k" := (bind m (fun _ => k))
  (at level 100, right associativity).

(** ** Strings *)

Module Str.

Definition dq : string := String "034"%char EmptyString.
Definition nl : string := String "010"%char EmptyString.

(** [str(v)].  The text Python shows for an opaque object depends on its
    class and address; a reference is rendered by its location. *)
Definition py_str (v : value) : string :=
  match v with
  | VNone => "None"
  | VBool true => "True"
  | VBool false => "False"
  | VInt z => pretty z
  | VStr s => s
  | VRef l => "<object " +:+ pretty (Zpos l) +:+ ">"
  end.

(** [fmt % args] restricted to the [%s] directive, the only one the file
    uses.  [None] stands for the [TypeError]/[ValueError] of a directive
    without an argument, an argument without a directive, or another
    directive. *)
Fixpoint format (fmt : string) (args : list value) : option string :=
  match fmt with
  | EmptyString => match args with [] => Some EmptyString | _ => None end
  | String c rest =>
      if Ascii.eqb c "%"%char then
        match rest with
        | String d rest' =>
            if Ascii.eqb d "s"%char then
              match args with
              | a :: args' =>
                  option_map (String.append (py_str a)) (format rest' args')
              | [] => None
              end
            else None
        | EmptyString => None
        end
      else option_map (String c) (format rest args)
  end.

Arguments format : simpl never.

(** [s.split(sep, maxsplit)] for a one-character separator. *)
Fixpoint split (sep : ascii) (maxsplit : nat) (s : string) : list string :=
  match maxsplit, s with
  | O, _ => [s]
  | S _, EmptyString => [EmptyString]
  | S m, String c s' =>
      if Ascii.eqb c sep then EmptyString :: split sep m s'
      else
        match split sep maxsplit s' with
        | p :: ps => String c p :: ps
        | [] => [String c EmptyString]
        end
  end.

(** [sub in s]. *)
Definition contains (sub s : string) : Prop :=
  exists a b, s = a +:+ sub +:+ b.

(** [posixpath.join] of two components. *)
Definition posix_join (a b : string) : string :=
  if String.prefix "/" b then b
  else if orb (String.eqb a "") (String.eqb (substring (String.length a - 1) 1 a) "/")
       then a +:+ b
       else a +:+ "/" +:+ b.

End Str.

Import Str.

(** ** Qt signals *)

Module Signal.

(** The argument types a [pyqtSignal] is declared with, as far as this
    file meets them: [int], [bool], [dict], and [object] for anything. *)
Inductive sigtype := SigInt | SigBool | SigDict | SigObject.

(** A C [int] of 32 bits, as two's complement. *)
Definition wrap_int (z : Z) : Z := ((z + 2 ^ 31) mod 2 ^ 32 - 2 ^ 31)%Z.

(** What [emit] makes of one argument for one declared type.  An [int]
    goes through a C [long long] into a C [int]: beyond 64 bits it is an
    [OverflowError], within them the value is cut to 32 bits without a
    check (sip's overflow checking is off unless asked for).  A [bool] is
    wanted as a number.  A [dict] is handed on by reference. *)
Definition convert (m : gmap loc (gmap string value)) (t : sigtype) (v : value)
    : exn + value :=
  match t, v with
  | SigInt, VInt z =>
      if decide (- 2 ^ 63 ≤ z < 2 ^ 63)%Z then inr (VInt (wrap_int z))
      else inl (OtherError "OverflowError")
  | SigInt, VBool b => inr (VInt (if b then 1 else 0))
  | SigBool, VBool b => inr (VBool b)
  | SigBool, VInt z => inr (VBool (negb (z =? 0)%Z))
  | SigDict, VRef l =>
      match m !! l with Some _ => inr (VRef l) | None => inl TypeError end
  | SigObject, _ => inr v
  | _, _ => inl TypeError
  end.

(** The arguments of [emit] against the declared types, left to right;
    [TypeError] when their number differs. *)
Fixpoint convert_args (m : gmap loc (gmap string value))
    (sig : list sigtype) (args : list value) : exn + list value :=
  match sig, args with
  | [], [] => inr []
  | t :: sig', v :: args' =>
      match convert m t v with
      | inr v' =>
          match convert_args m sig' args' with
          | inr vs => inr (v' :: vs)
          | inl e => inl e
          end
      | inl e => inl e
      end
  | _, _ => inl TypeError
  end.

End Signal.

Import Signal.

(** ** What the file takes from elsewhere *)

(** The operating system, the controller ([self.core]), the parent window
    ([self.parent]) and the slots the application has connected to the
    [modified] signal are not defined in this file. *)
Record host := mkHost {
  os_path_join : string -> string -> string;
  os_path_exists : string -> bool;
  core_getPresetDir : hook value;
  core_openPreset : string -> value -> string -> hook value;
  parent_drawPreview : hook value;
  modified_slots : value -> value -> hook value
}.

(** What a class that inherits from [Component] contributes: its docstring,
    the [savePreset] method and the [modified] signal with the types it is
    declared with (the base class defines neither), and [commandHelp].
    Names defined on the class are looked up on the class: the instance is
    taken not to shadow them. *)
Record class := mkClass {
  cls_doc : value;
  cls_savePreset : option (hook value);
  cls_modified : bool;
  cls_modified_args : list sigtype;
  cls_commandHelp : hook value
}.

(** [print(a, b, ...)]: the [str] of each argument, separated by a space,
    and a newline. *)
Definition print (args : list value) : M unit :=
  emit (EvPrint (String.concat " " (map py_str args) +:+ nl)).

(** [fmt % args] as a computation: [TypeError] where [format] fails. *)
Definition percent (fmt : string) (args : list value) : M value :=
  match format fmt args with
  | Some s => ret (VStr s)
  | None => raise TypeError
  end.

(** [setattr(self, name, v)] for a name the caller chooses.  Three names
    are not entries of the attribute dictionary but slots of the object:
    [__class__] takes a class only, and no value here is one; [__weakref__]
    is not writable; [__dict__] takes a dictionary and makes it the
    attribute dictionary itself, so that what the instance had is gone and
    later attributes are written into that dictionary.  [dict_at] is the
    location of the attribute dictionary when it is one of the heap. *)
Definition object_setattr (dict_at : option loc) (name : string) (v : value)
    : M (option loc) :=
  fun st =>
    if decide (name = "__class__") then (Raise TypeError, st)
    else if decide (name = "__weakref__") then
      (Raise (AttributeError "__weakref__"), st)
    else if decide (name = "__dict__") then
      match v with
      | VRef l =>
          match mem st !! l with
          | Some d => (Ret (Some l), mkState d (mem st) (trace st))
          | None => (Raise TypeError, st)
          end
      | _ => (Raise TypeError, st)
      end
    else
      (Ret dict_at,
       mkState (<[name := v]> (self st))
               (match dict_at with
                | Some l => <[l := <[name := v]> (self st)]> (mem st)
                | None => mem st
                end)
               (trace st)).

(** [for key, value in items: setattr(self, key, value)]. *)
Fixpoint set_items (dict_at : option loc) (items : list (string * value))
    : M unit :=
  match items with
  | [] => ret tt
  | (key, value) :: rest =>
      at_ <- object_setattr dict_at key value ;;
      set_items at_ rest
  end.

(** ** class Component *)

Module Component.

Definition doc : string :=
  nl +:+
  "        A class for components to inherit. Read comments for documentation" +:+ nl +:+
  "        on making a valid component. All subclasses must implement this signal:" +:+ nl +:+
  "            modified = QtCore.pyqtSignal(int, bool)" +:+ nl +:+
  "    ".

Definition usage : string :=
  "Usage:" +:+ nl +:+
  "Open a preset for this component:" +:+ nl +:+
  "    " +:+ dq +:+ "preset=Preset Name" +:+ dq.

Definition msg_missing : string :=
  "Couldn't locate preset " +:+ dq +:+ "%s" +:+ dq.

Definition msg_opening : string :=
  "Opening " +:+ dq +:+ "%s" +:+ dq +:+ " preset on layer %s".

(** The base class's own [commandHelp]: a docstring and nothing else. *)
Definition commandHelp : hook value := fun s m => (Ret VNone, s, m).

(** [Component] taken as the class of the instance. *)
Definition base : class := mkClass (VStr doc) None false [] commandHelp.

Section Methods.

Context (H : host) (C : class).

(** [super().__init__()] is [QObject]'s and adds no instance attribute. *)
Definition __init__ (moduleIndex compPos core : value) : M unit :=
  setattr "currentPreset" VNone ;;;
  setattr "canceled" (VBool false) ;;;
  setattr "moduleIndex" moduleIndex ;;;
  setattr "compPos" compPos ;;;
  setattr "core" core.

Definition version : M value := ret (VInt 1).

Definition error : M value := ret VNone.

Definition cancel : M unit := setattr "canceled" (VBool true).

Definition reset : M unit := setattr "canceled" (VBool false).

(** [self.parent.drawPreview()].  Without an instance attribute [parent]
    the name is [QObject.parent], which has no [drawPreview]. *)
Definition drawPreview : M value :=
  fun st =>
    match self st !! "parent" with
    | Some (VRef p) => call (EvDrawPreview p) (parent_drawPreview H) st
    | _ => (Raise (AttributeError "drawPreview"), st)
    end.

(** [self.savePreset()]. *)
Definition savePreset : M value :=
  match cls_savePreset C with
  | Some h => call EvSavePreset h
  | None => raise (AttributeError "savePreset")
  end.

(** [self.modified.emit(pos, store)]; [pos] is evaluated after
    [self.modified] is found.  [emit] checks and converts its arguments
    against the declared types, and then runs the connected slots, with
    the converted arguments, before it returns. *)
Definition modified_emit (pos : M value) (store : value) : M unit :=
  if cls_modified C then
    p <- pos ;;
    fun st =>
      match convert_args (mem st) (cls_modified_args C) [p; store] with
      | inr [p'; store'] =>
          (call (EvEmitModified p' store') (modified_slots H p' store') ;;;
           ret tt) st
      | inr _ => (Raise TypeError, st)
      | inl e => (Raise e, st)
      end
  else raise (AttributeError "modified").

Definition update : M unit :=
  drawPreview ;;;
  saveValueStore <- savePreset ;;
  currentPreset <- getattr "currentPreset" ;;
  setitem saveValueStore "preset" currentPreset ;;;
  modified_emit (getattr "compPos") saveValueStore.

Definition loadPreset (presetDict presetName : value) : M unit :=
  v <- (if decide (presetName = VNone)
        then getitem presetDict "preset"
        else ret presetName) ;;
  setattr "currentPreset" v.

(** [kwargs] holds the items of the keyword dictionary in its order, the
    order of the call; its keys are distinct, as in any dictionary.  A
    keyword [self] cannot be bound next to the instance: the call fails
    before the body runs. *)
Definition preFrameRender (kwargs : list (string * value)) : M unit :=
  if decide ("self" ∈ kwargs.*1) then raise TypeError
  else set_items None kwargs.

(** [self.core.getPresetDir(self)]. *)
Definition getPresetDir : M value :=
  core <- getattr "core" ;;
  match core with
  | VRef c => call (EvGetPresetDir c) (core_getPresetDir H)
  | _ => raise (AttributeError "getPresetDir")
  end.

(** [self.core.openPreset(path, self.compPos, preset)]. *)
Definition openPreset (path preset : string) : M value :=
  core <- getattr "core" ;;
  match core with
  | VRef c =>
      compPos <- getattr "compPos" ;;
      call (EvOpenPreset c path compPos preset)
           (core_openPreset H path compPos preset)
  | _ => raise (AttributeError "openPreset")
  end.

(** [os.path.join(d, preset)] where [d] came from the controller. *)
Definition join (d : value) (preset : string) : M string :=
  match d with
  | VStr dir => ret (os_path_join H dir preset)
  | _ => raise TypeError
  end.

Definition command (arg : string) : M unit :=
  if String.prefix "preset=" arg then
    match split "="%char 1 arg with
    | [_; preset] =>
        d <- getPresetDir ;;
        path <- join d preset ;;
        if negb (os_path_exists H path) then
          msg <- percent msg_missing [VStr preset] ;;
          print [msg] ;;;
          quit (Some 1%Z)
        else
          compPos <- getattr "compPos" ;;
          msg <- percent msg_opening [VStr preset; compPos] ;;
          print [msg] ;;;
          openPreset path preset ;;;
          ret tt
    | _ => raise ValueError
    end
  else
    print [cls_doc C; VStr usage] ;;;
    call EvCommandHelp (cls_commandHelp C) ;;;
    quit (Some 0%Z).

End Methods.

End Component.

(** ** class BadComponentInit *)

Module BadComponentInit.

Definition banner : string :=
  "################################" +:+ nl +:+
  "Mandatory argument " +:+ dq +:+ "%s" +:+ dq +:+ " not specified" +:+ nl +:+
  "  in %s instance initialization" +:+ nl +:+
  "###################################".

Definition __init__ (arg name : value) : M unit :=
  msg <- percent banner [arg; name] ;;
  print [msg] ;;;
  quit None.

End BadComponentInit.

(** ** Vocabulary of the statements *)

(** The outcome of a call whose result is discarded. *)
Definition forget {A} (o : outcome A) : outcome unit :=
  match o with
  | Ret _ => Ret tt
  | Raise e => Raise e
  | Exit c => Exit c
  end.

(** Some event of the list is a call of [core.openPreset]. *)
Definition opens_preset (evs : list event) : Prop :=
  ∃ c path pos name, EvOpenPreset c path pos name ∈ evs.

(** What one call of [update] can add to the trace: the three calls in
    their order, cut short where one of them fails. *)
Inductive update_events : list event → Prop :=
  | upd_none : update_events []
  | upd_drawn p : update_events [EvDrawPreview p]
  | upd_saved p : update_events [EvDrawPreview p; EvSavePreset]
  | upd_emitted p pos store :
      update_events [EvDrawPreview p; EvSavePreset; EvEmitModified pos store].

(** What a result [r] of [update], started in [st], must look like: its
    new events are in the order of [update_events], and an emission is of
    a dictionary in which ['preset'] is the current preset, with the
    position as [emit] converts it, the slots deciding the rest. *)
Definition update_shape (H : host) (st : state) (r : outcome unit * state)
    : Prop :=
  ∃ evs,
    trace (snd r) = trace st ++ evs
    ∧ update_events evs
    ∧ ∀ pos' store, EvEmitModified pos' store ∈ evs →
        ∃ l s m d cur pos t,
          store = VRef l
          ∧ m !! l = Some d
          ∧ d !! "preset" = Some cur
          ∧ s !! "currentPreset" = Some cur
          ∧ s !! "compPos" = Some pos
          ∧ convert m t pos = inr pos'
          ∧ r = (forget (modified_slots H pos' store s m).1.1,
                 mkState (modified_slots H pos' store s m).1.2
                         (modified_slots H pos' store s m).2
                         (trace st ++ evs)).

Arguments update_shape : simpl never.

(** The names [setattr] does not store as plain entries of the attribute
    dictionary. *)
Definition plain_exceptions : list string :=
  ["__class__"; "__weakref__"; "__dict__"]%string.

(** ** A concrete scenario, for running the model *)

Module Scenario.

(** A freshly allocated instance: no attribute, empty heap, nothing done. *)
Definition fresh : state := mkState ∅ ∅ [].

(** A controller whose preset directory is [/presets] and that holds one
    preset, [a=b]; a parent window whose [drawPreview] returns. *)
Definition desk : host :=
  mkHost posix_join
         (fun p => String.eqb p "/presets/a=b")
         (fun s m => (Ret (VStr "/presets"), s, m))
         (fun _ _ _ s m => (Ret (VBool true), s, m))
         (fun s m => (Ret VNone, s, m))
         (fun _ _ s m => (Ret VNone, s, m)).

(** A subclass with a docstring, a [savePreset] that returns the dictionary
    at location 7 after filling it, and the [modified] signal. *)
Definition save : hook value :=
  fun s m => (Ret (VRef 7%positive), s, <[7%positive := {[ "size" := VInt 12 ]}]> m).

Definition sub : class :=
  mkClass (VStr "A layer.") (Some save) true [SigInt; SigDict]
          Component.commandHelp.

(** The instance after [Component(3, 0, core)], and after a subclass's
    [widget] has stored the parent window. *)
Definition made : state :=
  snd (Component.__init__ (VInt 3) (VInt 0) (VRef 1%positive) fresh).

Definition shown : state :=
  snd (setattr "parent" (VRef 2%positive) made).

(** The same instance next to two dictionaries on the heap: a preset that
    records its own name, at location 7, and one that does not, at 8. *)
Definition stored : state :=
  mkState (self shown)
          (<[7%positive := {[ "preset" := VStr "old"; "size" := VInt 12 ]}]>
             (<[8%positive := {[ "size" := VInt 12 ]}]> ∅))
          [].

(** Keyword arguments as the export thread passes them. *)
Definition kwargs : list (string * value) :=
  [("sampleSize", VInt 1470); ("worker", VRef 9%positive);
   ("canceled", VBool true)]%string.

(** Keyword arguments that end with a dictionary for [__dict__]. *)
Definition rebinding : list (string * value) :=
  [("sampleSize", VInt 1470); ("__dict__", VRef 8%positive)]%string.

(** A subclass whose [savePreset] ends without a [return], and one that
    saves but declares no [modified] signal. *)
Definition forgetful : class :=
  mkClass VNone (Some (fun s m => (Ret VNone, s, m))) true [SigInt; SigDict]
          Component.commandHelp.

Definition unsignalled : class :=
  mkClass (VStr "A layer.") (Some save) false [] Component.commandHelp.

(** A subclass that declares the signal as the docstring of [Component]
    asks for it: [pyqtSignal(int, bool)]. *)
Definition documented : class :=
  mkClass (VStr "A layer.") (Some save) true [SigInt; SigBool]
          Component.commandHelp.

(** An application whose slot for [modified] files the position it is
    given under ['layer'] in the dictionary it is given. *)
Definition filing : host :=
  mkHost posix_join
         (fun p => String.eqb p "/presets/a=b")
         (fun s m => (Ret (VStr "/presets"), s, m))
         (fun _ _ _ s m => (Ret (VBool true), s, m))
         (fun s m => (Ret VNone, s, m))
         (fun pos store s m =>
            match store with
            | VRef l =>
                match m !! l with
                | Some d => (Ret VNone, s, <[l := <["layer" := pos]> d]> m)
                | None => (Raise TypeError, s, m)
                end
            | _ => (Raise TypeError, s, m)
            end).

End Scenario.

(** ** Properties *)

Import Component.

Example split_first_only : split "="%char 1 "preset=a=b" = ["preset"; "a=b"]%string.
Proof. reflexivity. Qed.

Example split_without_separator : split "="%char 1 "preset" = ["preset"]%string.
Proof. reflexivity. Qed.

Example made_fields :
  map_to_list (self Scenario.made) =
  [("compPos", VInt 0); ("core", VRef 1%positive); ("currentPreset", VNone);
   ("canceled", VBool false); ("moduleIndex", VInt 3)]%string.
Proof. vm_compute. reflexivity. Qed.

Section Construction.

Variables moduleIndex compPos core : value.

Lemma init_runs (st : state) :
  __init__ moduleIndex compPos core st =
  (Ret tt,
   mkState (<["core" := core]> (<["compPos" := compPos]>
             (<["moduleIndex" := moduleIndex]> (<["canceled" := VBool false]>
               (<["currentPreset" := VNone]> (self st))))))
           (mem st) (trace st)).
Proof. reflexivity. Qed.

(** C5: after [__init__(moduleIndex, compPos, core)] the five fields hold
    the arguments, [None] and [False], and the instance has exactly these
    five attributes on top of those it had before the call (none, for a new
    instance). *)
Theorem init_fields (st : state) :
  let r := __init__ moduleIndex compPos core st in
  fst r = Ret tt
  ∧ self (snd r) !! "moduleIndex" = Some moduleIndex
  ∧ self (snd r) !! "compPos" = Some compPos
  ∧ self (snd r) !! "core" = Some core
  ∧ self (snd r) !! "currentPreset" = Some VNone
  ∧ self (snd r) !! "canceled" = Some (VBool false)
  ∧ dom (self (snd r)) =
      ({[ "moduleIndex"; "compPos"; "core"; "currentPreset"; "canceled" ]} : gset string)
      ∪ dom (self st)
  ∧ dom (self (snd (__init__ moduleIndex compPos core Scenario.fresh))) =
      ({[ "moduleIndex"; "compPos"; "core"; "currentPreset"; "canceled" ]} : gset string)
  ∧ mem (snd r) = mem st
  ∧ trace (snd r) = trace st.
Proof.
  intros r. subst r. rewrite init_runs. simpl.
  split_and!; try reflexivity; try (by simplify_map_eq).
  rewrite !dom_insert_L. apply set_eq. intros k.
  rewrite !elem_of_union, !elem_of_singleton. tauto.
Qed.

End Construction.

Section Cancellation.

Variable st : state.

Lemma cancel_runs :
  cancel st = (Ret tt, mkState (<["canceled" := VBool true]> (self st)) (mem st) (trace st)).
Proof. reflexivity. Qed.

Lemma reset_runs :
  reset st = (Ret tt, mkState (<["canceled" := VBool false]> (self st)) (mem st) (trace st)).
Proof. reflexivity. Qed.

(** C9: [cancel] sets [canceled] to [True] and [reset] sets it to [False];
    both return, and leave every other attribute ([moduleIndex], [compPos],
    [core], [currentPreset] among them), the heap and the trace as they
    were.  [reset] after [cancel] gives [canceled] the value [__init__]
    gives it. *)
Theorem cancel_reset_frame (moduleIndex compPos core : value) :
  let c := snd (cancel st) in
  let r := snd (reset st) in
  (fst (cancel st) = Ret tt ∧ fst (reset st) = Ret tt)
  ∧ (self c !! "canceled" = Some (VBool true)
     ∧ self r !! "canceled" = Some (VBool false))
  ∧ (delete "canceled" (self c) = delete "canceled" (self st)
     ∧ delete "canceled" (self r) = delete "canceled" (self st))
  ∧ (self c !! "moduleIndex" = self st !! "moduleIndex"
     ∧ self c !! "compPos" = self st !! "compPos"
     ∧ self c !! "core" = self st !! "core"
     ∧ self c !! "currentPreset" = self st !! "currentPreset")
  ∧ (self r !! "moduleIndex" = self st !! "moduleIndex"
     ∧ self r !! "compPos" = self st !! "compPos"
     ∧ self r !! "core" = self st !! "core"
     ∧ self r !! "currentPreset" = self st !! "currentPreset")
  ∧ (mem c = mem st ∧ trace c = trace st ∧ mem r = mem st ∧ trace r = trace st)
  ∧ self (snd (reset c)) !! "canceled" = Some (VBool false)
  ∧ self (snd (reset c)) !! "canceled" =
    self (snd (__init__ moduleIndex compPos core st)) !! "canceled".
Proof.
  intros c r. subst c r. rewrite cancel_runs, reset_runs. simpl.
  split_and!; try reflexivity;
    try (by rewrite lookup_insert_ne);
    try (by rewrite lookup_insert_eq);
    try apply delete_insert_eq.
  rewrite lookup_insert_eq. by simplify_map_eq.
Qed.

End Cancellation.

Section Presets.

Variables (presetDict presetName : value) (st : state).

(** C7: with a [presetName] other than [None], [loadPreset] stores it in
    [currentPreset]; with [None] and a dictionary that has the key
    ['preset'] it stores that entry; with [None] and a dictionary without
    the key the call raises [KeyError] and leaves the instance as it was. *)
Theorem loadPreset_currentPreset :
  let r := loadPreset presetDict presetName st in
  (presetName ≠ VNone →
     fst r = Ret tt ∧ self (snd r) !! "currentPreset" = Some presetName)
  ∧ (∀ l d v,
       presetName = VNone → presetDict = VRef l → mem st !! l = Some d →
       d !! "preset" = Some v →
       fst r = Ret tt ∧ self (snd r) !! "currentPreset" = Some v)
  ∧ (∀ l d,
       presetName = VNone → presetDict = VRef l → mem st !! l = Some d →
       d !! "preset" = None →
       fst r = Raise (KeyError "preset") ∧ snd r = st).
Proof.
  intros r. subst r. unfold loadPreset, bind.
  split_and!.
  - intros Hname. destruct (decide (presetName = VNone)) as [E|_]; [done|].
    simpl. by rewrite lookup_insert_eq.
  - intros l d v -> -> Hl Hd. simpl. unfold getitem. rewrite Hl, Hd.
    simpl. by rewrite lookup_insert_eq.
  - intros l d -> -> Hl Hd. simpl. unfold getitem. by rewrite Hl, Hd.
Qed.

End Presets.

Section Rendering.

Lemma object_setattr_plain (name : string) (v : value) (st : state) :
  name ∉ plain_exceptions →
  object_setattr None name v st =
  (Ret None, mkState (<[name := v]> (self st)) (mem st) (trace st)).
Proof.
  intros Hname. unfold plain_exceptions in Hname.
  rewrite !not_elem_of_cons in Hname. destruct Hname as (? & ? & ? & _).
  unfold object_setattr. by repeat (case_decide; [done|]).
Qed.

(** The loop of [preFrameRender] over plain names: all of them are stored,
    one after the other. *)
Lemma set_items_plain (items : list (string * value)) (st : state) :
  (∀ k, k ∈ items.*1 → k ∉ plain_exceptions) →
  ∃ s', set_items None items st = (Ret tt, mkState s' (mem st) (trace st))
      ∧ (∀ k, k ∉ items.*1 → s' !! k = self st !! k)
      ∧ (NoDup items.*1 → ∀ k v, (k, v) ∈ items → s' !! k = Some v).
Proof.
  revert st. induction items as [|[k0 v0] items IH]; intros st Hplain.
  - exists (self st). destruct st. split_and!; [done|done|].
    intros _ k v Hin. by apply elem_of_nil in Hin.
  - cbn [set_items]. unfold bind.
    rewrite object_setattr_plain by (apply Hplain; cbn; apply elem_of_cons; by left).
    destruct (IH (mkState (<[k0 := v0]> (self st)) (mem st) (trace st)))
      as (s' & Hrun & Hout & Hin).
    { intros k Hk. apply Hplain. cbn. apply elem_of_cons. by right. }
    exists s'. cbn in *. split_and!; [done| |].
    + intros k Hk. apply not_elem_of_cons in Hk as [Hne Hk].
      rewrite (Hout k Hk). by rewrite lookup_insert_ne.
    + intros Hnd k v Hkv. apply NoDup_cons in Hnd as [Hfresh Hnd].
      apply elem_of_cons in Hkv as [Heq|Hkv].
      * inversion Heq; subst. rewrite (Hout k0 Hfresh).
        by rewrite lookup_insert_eq.
      * by apply Hin.
Qed.

(** Without a keyword [__dict__], the loop returns only if no name was
    refused on the way. *)
Lemma set_items_returns (items : list (string * value)) (st : state) :
  "__dict__" ∉ items.*1 →
  fst (set_items None items st) = Ret tt →
  ∀ k, k ∈ items.*1 → k ∉ plain_exceptions.
Proof.
  revert st. induction items as [|[k0 v0] items IH]; intros st Hdict Hret k Hk.
  - by apply elem_of_nil in Hk.
  - cbn in Hdict. apply not_elem_of_cons in Hdict as [Hne Hdict].
    assert (Hk0 : k0 ∉ plain_exceptions).
    { unfold plain_exceptions. rewrite !not_elem_of_cons.
      cbn [set_items] in Hret. unfold bind, object_setattr in Hret.
      split_and!; [| |done|apply not_elem_of_nil]; intros ->;
        repeat case_decide; try done. }
    cbn in Hk. apply elem_of_cons in Hk as [->|Hk]; [done|].
    cbn [set_items] in Hret. unfold bind in Hret.
    rewrite object_setattr_plain in Hret by done.
    by eapply IH.
Qed.


End Rendering.

Section SingleItem.

Lemma set_items_single (name : string) (v : value) (st : state) :
  name ∉ plain_exceptions →
  set_items None [(name, v)] st = setattr name v st.
Proof.
  intros Hname. cbn [set_items]. unfold bind.
  by rewrite object_setattr_plain.
Qed.

End SingleItem.

(** ** Strings: the facts the command line needs *)

Section StringFacts.

Lemma append_assoc (a b c : string) : (a +:+ b) +:+ c = a +:+ b +:+ c.
Proof.
  induction a as [|x a IH]; [reflexivity|].
  change (String x ((a +:+ b) +:+ c) = String x (a +:+ b +:+ c)).
  f_equal. exact IH.
Qed.

Lemma append_nil_r (a : string) : a +:+ "" = a.
Proof.
  induction a as [|x a IH]; [reflexivity|].
  change (String x (a +:+ "") = String x a). f_equal. exact IH.
Qed.

Lemma contains_middle (a sub b : string) : contains sub (a +:+ sub +:+ b).
Proof. by exists a, b. Qed.

Lemma contains_append_l (sub s a : string) : contains sub s → contains sub (a +:+ s).
Proof.
  intros (x & y & ->). exists (a +:+ x), y. symmetry. apply append_assoc.
Qed.

Lemma contains_append_r (sub s b : string) : contains sub s → contains sub (s +:+ b).
Proof.
  intros (x & y & ->). exists x, (y +:+ b).
  rewrite (append_assoc x). f_equal. apply append_assoc.
Qed.

Lemma split_zero (sep : ascii) (s : string) : split sep 0 s = [s].
Proof. by destruct s. Qed.

(** Splitting ['preset=<name>'] once at ['=']: the name is all that follows
    the first ['='], further ['='] included. *)
Lemma split_preset (name : string) :
  split "="%char 1 ("preset=" +:+ name) = ["preset"%string; name].
Proof. simpl. by rewrite split_zero. Qed.

Lemma prefix_preset (name : string) : String.prefix "preset=" ("preset=" +:+ name) = true.
Proof. by destruct name. Qed.

Lemma format_missing (name : string) :
  format msg_missing [VStr name] =
  Some ("Couldn't locate preset " +:+ dq +:+ name +:+ dq).
Proof. reflexivity. Qed.

Lemma format_opening (name : string) (pos : value) :
  format msg_opening [VStr name; pos] =
  Some ("Opening " +:+ dq +:+ name +:+ dq +:+ " preset on layer " +:+ py_str pos).
Proof.
  rewrite <- (append_nil_r (py_str pos)). reflexivity.
Qed.

Lemma format_banner (arg name : value) :
  format BadComponentInit.banner [arg; name] =
  Some ("################################" +:+ nl +:+
        "Mandatory argument " +:+ dq +:+ py_str arg +:+ dq +:+ " not specified" +:+ nl +:+
        "  in " +:+ py_str name +:+ " instance initialization" +:+ nl +:+
        "###################################").
Proof. reflexivity. Qed.

End StringFacts.

Section Failure.

Variables (arg name : value) (st : state).


End Failure.

(** Bring a trace, and the texts printed in it, to right-nested form. *)
Ltac flatten :=
  simpl; rewrite <- ?(assoc_L (++)); rewrite ?append_assoc; simpl.

Section CommandLine.

Variables (H : host) (C : class).

Lemma not_opens_preset_help (text : string) :
  ¬ opens_preset [EvPrint text; EvCommandHelp].
Proof.
  intros (c & path & pos & name & Hin).
  repeat (apply elem_of_cons in Hin as [Hin|Hin]; [discriminate|]).
  by apply elem_of_nil in Hin.
Qed.

Lemma not_opens_preset_missing (c : loc) (text : string) :
  ¬ opens_preset [EvGetPresetDir c; EvPrint text].
Proof.
  intros (c' & path & pos & name & Hin).
  repeat (apply elem_of_cons in Hin as [Hin|Hin]; [discriminate|]).
  by apply elem_of_nil in Hin.
Qed.

(** The branch of [command] for an argument that is no preset. *)
Lemma command_help_runs (arg : string) (st : state) :
  String.prefix "preset=" arg = false →
  command H C arg st =
  (match cls_commandHelp C (self st) (mem st) with
   | (Ret _, _, _) => Exit (Some 0%Z)
   | (Raise e, _, _) => Raise e
   | (Exit c, _, _) => Exit c
   end,
   match cls_commandHelp C (self st) (mem st) with
   | (_, s', m') =>
       mkState s' m'
         (trace st ++ [EvPrint (py_str (cls_doc C) +:+ " " +:+ usage +:+ nl);
                       EvCommandHelp])
   end).
Proof.
  intros Hpre. unfold command. rewrite Hpre.
  unfold bind, print, emit, call, quit. simpl.
  destruct (cls_commandHelp C (self st) (mem st)) as [[[v|e|c] s'] m'];
    by flatten.
Qed.

(** C8: for an argument that does not start with ['preset='], [command]
    prints the docstring and the usage text, here spelled out, calls
    [commandHelp] and, that call returning, quits with code 0;
    [core.openPreset] is not called.  With the base class's own
    [commandHelp] the call always returns. *)
Theorem command_help (arg : string) (st : state) :
  String.prefix "preset=" arg = false →
  let r := command H C arg st in
  let text := py_str (cls_doc C) +:+ " " +:+
              "Usage:" +:+ nl +:+
              "Open a preset for this component:" +:+ nl +:+
              "    " +:+ dq +:+ "preset=Preset Name" +:+ dq +:+ nl in
  trace (snd r) = trace st ++ [EvPrint text; EvCommandHelp]
  ∧ contains (py_str (cls_doc C)) text
  ∧ contains "Usage:" text
  ∧ contains ("Open a preset for this component:" +:+ nl +:+
              "    " +:+ dq +:+ "preset=Preset Name" +:+ dq) text
  ∧ ¬ opens_preset [EvPrint text; EvCommandHelp]
  ∧ (∀ v s' m', cls_commandHelp C (self st) (mem st) = (Ret v, s', m') →
       fst r = Exit (Some 0%Z) ∧ exit_status (Some 0%Z) = 0%Z)
  ∧ (∀ a, fst r ≠ Ret a)
  ∧ (cls_commandHelp C = commandHelp → fst r = Exit (Some 0%Z)).
Proof.
  intros Hpre r text. subst r. rewrite (command_help_runs arg st Hpre).
  assert (Husage : usage +:+ nl =
                   "Usage:" +:+ nl +:+
                   "Open a preset for this component:" +:+ nl +:+
                   "    " +:+ dq +:+ "preset=Preset Name" +:+ dq +:+ nl)
    by reflexivity.
  rewrite Husage. split_and!.
  - by destruct (cls_commandHelp C (self st) (mem st)) as [[o s'] m'].
  - apply (contains_middle "").
  - do 2 apply contains_append_l. eexists "", _. reflexivity.
  - do 4 apply contains_append_l.
    exists "", nl. rewrite !append_assoc. reflexivity.
  - apply not_opens_preset_help.
  - intros v s' m' ->. done.
  - intros a. by destruct (cls_commandHelp C (self st) (mem st)) as [[[v|e|c] s'] m'].
  - intros ->. done.
Qed.

(** The branch of [command] for ['preset=<name>'], up to the test for the
    file. *)
Lemma command_preset_runs (name : string) (st : state) :
  command H C ("preset=" +:+ name) st =
  (d <- getPresetDir H ;;
   path <- join H d name ;;
   if negb (os_path_exists H path) then
     msg <- percent msg_missing [VStr name] ;;
     print [msg] ;;;
     quit (Some 1%Z)
   else
     compPos <- getattr "compPos" ;;
     msg <- percent msg_opening [VStr name; compPos] ;;
     print [msg] ;;;
     openPreset H path name ;;;
     ret tt) st.
Proof.
  unfold command. by rewrite prefix_preset, split_preset.
Qed.

Section Preset.

Variables (name dir : string) (c : loc) (st : state).
Variables (s1 : gmap string value) (m1 : gmap loc (gmap string value)).

Hypothesis Hcore : self st !! "core" = Some (VRef c).
Hypothesis Hdir : core_getPresetDir H (self st) (mem st) = (Ret (VStr dir), s1, m1).

(** C2: for ['preset=<name>'] with no file at the joined path, [command]
    prints an error message in which the name appears and quits with code
    1; [core.openPreset] is not called. *)
Theorem command_preset_missing :
  os_path_exists H (os_path_join H dir name) = false →
  let r := command H C ("preset=" +:+ name) st in
  let text := "Couldn't locate preset " +:+ dq +:+ name +:+ dq +:+ nl in
  fst r = Exit (Some 1%Z)
  ∧ exit_status (Some 1%Z) = 1%Z
  ∧ trace (snd r) = trace st ++ [EvGetPresetDir c; EvPrint text]
  ∧ contains name text
  ∧ ¬ opens_preset [EvGetPresetDir c; EvPrint text].
Proof.
  intros Hno r text. subst r. rewrite command_preset_runs.
  unfold bind, getPresetDir, bind, getattr. rewrite Hcore.
  unfold call. rewrite Hdir. cbn. rewrite Hno. cbn.
  unfold percent. rewrite format_missing. cbn.
  split_and!; try done.
  - by flatten.
  - do 2 apply contains_append_l. apply (contains_middle "").
  - apply not_opens_preset_missing.
Qed.

(** C1: for ['preset=<name>'], the name being all that follows the first
    ['='], with a file at the joined path, [command] prints an opening
    message and calls [core.openPreset(path, self.compPos, name)].  It does
    not quit: its outcome is that of the controller's call, a plain return
    when that call returns. *)
Theorem command_preset_opens (pos : value) (c' : loc) :
  os_path_exists H (os_path_join H dir name) = true →
  s1 !! "compPos" = Some pos →
  s1 !! "core" = Some (VRef c') →
  let r := command H C ("preset=" +:+ name) st in
  let path := os_path_join H dir name in
  let text := "Opening " +:+ dq +:+ name +:+ dq +:+ " preset on layer "
              +:+ py_str pos +:+ nl in
  split "="%char 1 ("preset=" +:+ name) = ["preset"%string; name]
  ∧ trace (snd r) =
      trace st ++ [EvGetPresetDir c; EvPrint text; EvOpenPreset c' path pos name]
  ∧ fst r = forget (core_openPreset H path pos name s1 m1).1.1
  ∧ (∀ v s2 m2, core_openPreset H path pos name s1 m1 = (Ret v, s2, m2) →
       fst r = Ret tt)
  ∧ (∀ code, fst r = Exit code →
       (core_openPreset H path pos name s1 m1).1.1 = Exit code).
Proof.
  intros Hyes Hpos Hcore' r path text. subst r path.
  rewrite command_preset_runs.
  unfold bind at 1. unfold getPresetDir, bind, getattr. rewrite Hcore.
  unfold call. rewrite Hdir. cbn. rewrite Hyes. cbn.
  rewrite Hpos. unfold percent. rewrite format_opening.
  unfold openPreset, bind, getattr, call. cbn. rewrite Hcore'. cbn. rewrite Hpos. cbn.
  destruct (core_openPreset H (os_path_join H dir name) pos name s1 m1)
    as [[o s2] m2] eqn:Hopen.
  split_and!.
  - apply split_preset.
  - destruct o; by flatten.
  - by destruct o.
  - intros v s2' m2' [= -> _ _]. done.
  - intros code. destruct o; simpl; congruence.
Qed.

End Preset.

End CommandLine.

Section Signals.

Variable m : gmap loc (gmap string value).

Lemma wrap_int_small (z : Z) : (- 2 ^ 31 ≤ z < 2 ^ 31)%Z → wrap_int z = z.
Proof. intros Hz. unfold wrap_int. rewrite Z.mod_small; lia. Qed.

Lemma convert_int_small (z : Z) :
  (- 2 ^ 31 ≤ z < 2 ^ 31)%Z → convert m SigInt (VInt z) = inr (VInt z).
Proof.
  intros Hz. unfold convert. rewrite decide_True by lia.
  by rewrite wrap_int_small.
Qed.

(** A reference that [emit] accepts is handed on as it is. *)
Lemma convert_ref (t : sigtype) (l : loc) (v : value) :
  convert m t (VRef l) = inr v → v = VRef l.
Proof.
  destruct t; cbn; try done.
  - destruct (m !! l); [|done]. by intros [= <-].
  - by intros [= <-].
Qed.

Lemma convert_args_two (sig : list sigtype) (p store : value) (vs : list value) :
  convert_args m sig [p; store] = inr vs →
  ∃ t1 t2 p' store',
    sig = [t1; t2] ∧ vs = [p'; store']
    ∧ convert m t1 p = inr p' ∧ convert m t2 store = inr store'.
Proof.
  destruct sig as [|t1 [|t2 [|t3 sig]]]; cbn; try done.
  - by destruct (convert m t1 p).
  - destruct (convert m t1 p) as [e|p'] eqn:Hp; [done|].
    destruct (convert m t2 store) as [e|store'] eqn:Hs; [done|].
    intros [= <-]. by exists t1, t2, p', store'.
  - destruct (convert m t1 p) as [e|p']; [done|].
    destruct (convert m t2 store) as [e|store']; [done|].
    by destruct (convert m t3).
Qed.

(** The signal the docstring of [Component] prescribes refuses the
    dictionary [update] hands it. *)
Lemma convert_args_int_bool (z : Z) (l : loc) :
  (- 2 ^ 63 ≤ z < 2 ^ 63)%Z →
  convert_args m [SigInt; SigBool] [VInt z; VRef l] = inl TypeError.
Proof. intros Hz. cbn. by rewrite decide_True by lia. Qed.

Lemma convert_args_int_dict (z : Z) (l : loc) (d : gmap string value) :
  (- 2 ^ 31 ≤ z < 2 ^ 31)%Z →
  m !! l = Some d →
  convert_args m [SigInt; SigDict] [VInt z; VRef l] = inr [VInt z; VRef l].
Proof.
  intros Hz Hl. cbn [convert_args]. rewrite convert_int_small by done.
  cbn. by rewrite Hl.
Qed.

End Signals.

Section Update.

Variables (H : host) (C : class) (st : state).

(** The run of [update] in which every part is in place, as one
    equation: the slots get the instance as [savePreset] left it and the
    heap with ['preset'] written, and their outcome is the outcome. *)
Lemma update_runs (p l : loc) (v0 cur pos pos' : value) (save : hook value)
    (s1 s2 d : gmap string value) (m1 m2 : gmap loc (gmap string value)) :
  self st !! "parent" = Some (VRef p) →
  parent_drawPreview H (self st) (mem st) = (Ret v0, s1, m1) →
  cls_savePreset C = Some save →
  save s1 m1 = (Ret (VRef l), s2, m2) →
  m2 !! l = Some d →
  s2 !! "currentPreset" = Some cur →
  cls_modified C = true →
  s2 !! "compPos" = Some pos →
  convert_args (<[l := <["preset" := cur]> d]> m2) (cls_modified_args C)
               [pos; VRef l] = inr [pos'; VRef l] →
  update H C st =
  (forget (modified_slots H pos' (VRef l) s2
             (<[l := <["preset" := cur]> d]> m2)).1.1,
   mkState (modified_slots H pos' (VRef l) s2
              (<[l := <["preset" := cur]> d]> m2)).1.2
           (modified_slots H pos' (VRef l) s2
              (<[l := <["preset" := cur]> d]> m2)).2
           (trace st ++ [EvDrawPreview p; EvSavePreset;
                         EvEmitModified pos' (VRef l)])).
Proof.
  intros Hparent Hdraw Hsave Hstore Hl Hcur Hsig Hpos Hargs.
  unfold update, bind, drawPreview, savePreset, modified_emit, call.
  rewrite Hparent, Hdraw, Hsave. cbn. unfold call, bind. cbn.
  rewrite Hstore. unfold getattr, setitem, bind, emit. cbn.
  rewrite Hcur. cbn. rewrite Hl. cbn. rewrite Hsig. cbn.
  rewrite Hpos. cbn. rewrite Hargs. unfold call, ret. cbn.
  destruct (modified_slots H pos' (VRef l) s2 (<[l:=<["preset":=cur]> d]> m2))
    as [[[v|e|code] s3] m3]; by flatten.
Qed.

(** In every run of [update] the preview is requested before [savePreset]
    is called and [savePreset] is called before [modified] is emitted.  A
    run that emits does so last, after ['preset'] has been written; what
    it emits is the position, as [emit] converts it, and the dictionary in
    which ['preset'] is the current preset; the rest of the run is the
    slots'. *)
Lemma update_order :
  let r := update H C st in
  ∃ evs,
    trace (snd r) = trace st ++ evs
    ∧ update_events evs
    ∧ ∀ pos' store, EvEmitModified pos' store ∈ evs →
        ∃ l s m d cur pos t,
          store = VRef l
          ∧ m !! l = Some d
          ∧ d !! "preset" = Some cur
          ∧ s !! "currentPreset" = Some cur
          ∧ s !! "compPos" = Some pos
          ∧ convert m t pos = inr pos'
          ∧ r = (forget (modified_slots H pos' store s m).1.1,
                 mkState (modified_slots H pos' store s m).1.2
                         (modified_slots H pos' store s m).2
                         (trace st ++ evs)).
Proof.
  intros r. subst r. change (update_shape H st (update H C st)).
  assert (Hnil : ∀ pos store, EvEmitModified pos store ∉ ([] : list event))
    by (intros ???; by eapply not_elem_of_nil).
  assert (Hone : ∀ p pos store, EvEmitModified pos store ∉ [EvDrawPreview p]).
  { intros ??? Hin. apply elem_of_cons in Hin as [?|Hin]; [done|].
    by eapply not_elem_of_nil. }
  assert (Htwo : ∀ p pos store,
             EvEmitModified pos store ∉ [EvDrawPreview p; EvSavePreset]).
  { intros ??? Hin. repeat (apply elem_of_cons in Hin as [?|Hin]; [done|]).
    by eapply not_elem_of_nil. }
  assert (Hstop0 : ∀ o, update_shape H st (o, st)).
  { intros o. exists []. rewrite app_nil_r.
    split_and!; [done|constructor|intros ?? Hin; by apply Hnil in Hin]. }
  assert (Hstop1 : ∀ p o s m,
            update_shape H st (o, mkState s m (trace st ++ [EvDrawPreview p]))).
  { intros p o s m. exists [EvDrawPreview p].
    split_and!; [done|constructor|intros ?? Hin; by apply Hone in Hin]. }
  assert (Hstop2 : ∀ p o s m,
            update_shape H st
              (o, mkState s m (trace st ++ [EvDrawPreview p; EvSavePreset]))).
  { intros p o s m. exists [EvDrawPreview p; EvSavePreset].
    split_and!; [done|constructor|intros ?? Hin; by apply Htwo in Hin]. }
  unfold update, bind, drawPreview, savePreset, modified_emit, call.
  destruct (self st !! "parent") as [[| | | |p]|] eqn:Hparent; try apply Hstop0.
  destruct (parent_drawPreview H (self st) (mem st)) as [[[v0|e0|c0] s1] m1];
    try apply Hstop1.
  cbn. destruct (cls_savePreset C) as [save|]; [|apply Hstop1].
  unfold call, bind. cbn.
  destruct (save s1 m1) as [[[store|e1|c1] s2] m2];
    try (flatten; apply Hstop2).
  unfold getattr, setitem, bind. cbn.
  destruct (s2 !! "currentPreset") as [cur|] eqn:Hcur; cbn;
    [|flatten; apply Hstop2].
  destruct store as [| | | |l]; cbn; try (flatten; apply Hstop2).
  destruct (m2 !! l) as [d|] eqn:Hl; cbn; [|flatten; apply Hstop2].
  destruct (cls_modified C); cbn; [|flatten; apply Hstop2].
  destruct (s2 !! "compPos") as [pos|] eqn:Hpos; cbn; [|flatten; apply Hstop2].
  destruct (convert_args (<[l:=<["preset":=cur]> d]> m2) (cls_modified_args C)
              [pos; VRef l]) as [e|vs] eqn:Hargs; [flatten; apply Hstop2|].
  destruct (convert_args_two _ _ _ _ _ Hargs)
    as (t1 & t2 & pos' & store' & Hsig & -> & Hp & Hs).
  apply convert_ref in Hs as ->.
  unfold call, ret. cbn.
  exists [EvDrawPreview p; EvSavePreset; EvEmitModified pos' (VRef l)].
  split_and!.
  - destruct (modified_slots H pos' (VRef l) s2 (<[l:=<["preset":=cur]> d]> m2))
      as [[[v|e|code] s3] m3]; by flatten.
  - constructor.
  - intros pos'' store'' Hin.
    repeat (apply elem_of_cons in Hin as [Heq|Hin]; [try discriminate|]);
      [|by apply not_elem_of_nil in Hin].
    injection Heq as -> ->.
    exists l, s2, (<[l:=<["preset":=cur]> d]> m2), (<["preset":=cur]> d), cur, pos, t1.
    rewrite !lookup_insert_eq. split_and!; try done.
    destruct (modified_slots H pos' (VRef l) s2 (<[l:=<["preset":=cur]> d]> m2))
      as [[[v|e|code] s3] m3]; by flatten.
Qed.


End Update.

(** ** The theorems at work on the scenario *)

Section Witnesses.

Import Scenario.

Lemma init_fields_witness :
  dom (self made) =
  ({[ "moduleIndex"; "compPos"; "core"; "currentPreset"; "canceled" ]} : gset string).
Proof.
  pose proof (init_fields (VInt 3) (VInt 0) (VRef 1%positive) fresh) as W.
  cbv zeta in W. destruct W as (_ & _ & _ & _ & _ & _ & _ & W & _).
  exact W.
Defined.

Lemma cancel_reset_frame_witness :
  self (snd (cancel shown)) !! "canceled" = Some (VBool true)
  ∧ self (snd (reset (snd (cancel shown)))) !! "canceled" = Some (VBool false).
Proof.
  pose proof (cancel_reset_frame shown (VInt 3) (VInt 0) (VRef 1%positive)) as W.
  cbv zeta in W. destruct W as (_ & (W1 & _) & _ & _ & _ & _ & W2 & _).
  split; [exact W1|exact W2].
Defined.

Lemma loadPreset_currentPreset_witness :
  (VStr "mine" ≠ VNone
   ∧ self (snd (loadPreset (VRef 8%positive) (VStr "mine") stored)) !! "currentPreset"
     = Some (VStr "mine"))
  ∧ (mem stored !! 7%positive = Some {[ "preset" := VStr "old"; "size" := VInt 12 ]}
     ∧ self (snd (loadPreset (VRef 7%positive) VNone stored)) !! "currentPreset"
       = Some (VStr "old"))
  ∧ (mem stored !! 8%positive = Some {[ "size" := VInt 12 ]}
     ∧ fst (loadPreset (VRef 8%positive) VNone stored) = Raise (KeyError "preset")).
Proof.
  split_and!.
  - discriminate.
  - apply (proj1 (loadPreset_currentPreset (VRef 8%positive) (VStr "mine") stored)).
    discriminate.
  - reflexivity.
  - apply (proj1 (proj2 (loadPreset_currentPreset (VRef 7%positive) VNone stored))
             7%positive {[ "preset" := VStr "old"; "size" := VInt 12 ]} (VStr "old"));
      reflexivity.
  - reflexivity.
  - apply (proj2 (proj2 (loadPreset_currentPreset (VRef 8%positive) VNone stored))
             8%positive {[ "size" := VInt 12 ]});
      reflexivity.
Defined.




Lemma command_help_witness :
  String.prefix "preset=" "help" = false
  ∧ fst (command desk sub "help" made) = Exit (Some 0%Z)
  ∧ trace (snd (command desk sub "help" made)) =
    [EvPrint ("A layer. Usage:" +:+ nl +:+
              "Open a preset for this component:" +:+ nl +:+
              "    " +:+ dq +:+ "preset=Preset Name" +:+ dq +:+ nl);
     EvCommandHelp].
Proof.
  assert (Hpre : String.prefix "preset=" "help" = false) by reflexivity.
  pose proof (command_help desk sub "help" made Hpre) as W.
  cbv zeta in W. destruct W as (Wtrace & _ & _ & _ & _ & _ & _ & Wbase).
  split_and!; [exact Hpre|apply Wbase; reflexivity|exact Wtrace].
Defined.

Lemma command_preset_missing_witness :
  self made !! "core" = Some (VRef 1%positive)
  ∧ os_path_exists desk (os_path_join desk "/presets" "nope") = false
  ∧ fst (command desk sub "preset=nope" made) = Exit (Some 1%Z).
Proof.
  split_and!.
  - reflexivity.
  - reflexivity.
  - apply (command_preset_missing desk sub "nope" "/presets" 1%positive made
             (self made) (mem made)); reflexivity.
Defined.

Lemma command_preset_opens_witness :
  self made !! "core" = Some (VRef 1%positive)
  ∧ os_path_exists desk (os_path_join desk "/presets" "a=b") = true
  ∧ self made !! "compPos" = Some (VInt 0)
  ∧ fst (command desk sub "preset=a=b" made) = Ret tt
  ∧ trace (snd (command desk sub "preset=a=b" made)) =
    [EvGetPresetDir 1%positive;
     EvPrint ("Opening " +:+ dq +:+ "a=b" +:+ dq +:+ " preset on layer 0" +:+ nl);
     EvOpenPreset 1%positive "/presets/a=b" (VInt 0) "a=b"].
Proof.
  assert (W : _) by
    (refine (command_preset_opens desk sub "a=b" "/presets" 1%positive made
               (self made) (mem made) _ _ (VInt 0) 1%positive _ _ _);
     reflexivity).
  cbv zeta in W. destruct W as (_ & Wtrace & _ & Wret & _).
  split_and!.
  - reflexivity.
  - reflexivity.
  - reflexivity.
  - eapply Wret. reflexivity.
  - exact Wtrace.
Defined.


End Witnesses.

(** ** Further properties: parsing the argument *)

Section Splitting.

Variable sep : ascii.

Lemma split_nonempty (n : nat) (s : string) : split sep n s ≠ [].
Proof.
  destruct n as [|n].
  - by rewrite split_zero.
  - induction s as [|c s IH]; [done|].
    cbn. destruct (Ascii.eqb c sep); [done|].
    by destruct (split sep (S n) s).
Qed.

Lemma concat_cons_char (c : ascii) (p : string) (ps : list string) :
  String.concat (String sep "") (String c p :: ps)
  = String c (String.concat (String sep "") (p :: ps)).
Proof. by destruct ps. Qed.

Lemma concat_cons_empty (l : list string) :
  l ≠ [] →
  String.concat (String sep "") ("" :: l)
  = String sep (String.concat (String sep "") l).
Proof. by destruct l. Qed.

Lemma split_join (n : nat) (s : string) :
  String.concat (String sep "") (split sep n s) = s.
Proof.
  revert n. induction s as [|c s IH]; intros [|n]; try reflexivity.
  cbn [split]. destruct (Ascii.eqb c sep) eqn:Hc.
  - apply Ascii.eqb_eq in Hc as ->.
    rewrite concat_cons_empty by apply split_nonempty.
    by rewrite IH.
  - specialize (IH (S n)).
    destruct (split sep (S n) s) as [|p ps] eqn:Hs.
    + by apply split_nonempty in Hs.
    + rewrite concat_cons_char. by rewrite IH.
Qed.

Lemma split_length (n : nat) (s : string) :
  1 ≤ length (split sep n s) ≤ S n.
Proof.
  revert n. induction s as [|c s IH]; intros [|n]; cbn; try lia.
  destruct (Ascii.eqb c sep).
  - specialize (IH n). cbn. lia.
  - specialize (IH (S n)). destruct (split sep (S n) s); cbn in *; lia.
Qed.

Lemma split_head_free (n : nat) (s p : string) (ps : list string) :
  split sep (S n) s = p :: ps → sep ∉ list_ascii_of_string p.
Proof.
  revert p ps. induction s as [|c s IH]; intros p ps.
  - intros [= <- _]. apply not_elem_of_nil.
  - cbn [split]. destruct (Ascii.eqb c sep) eqn:Hc.
    + intros [= <- _]. apply not_elem_of_nil.
    + destruct (split sep (S n) s) as [|q qs] eqn:Hs.
      * by apply split_nonempty in Hs.
      * intros [= <- _]. cbn. apply not_elem_of_cons. split.
        -- intros ->. by rewrite Ascii.eqb_refl in Hc.
        -- by eapply IH.
Qed.

(** X1: [split] with a limit cuts at the leftmost separators only: joining the
    parts with the separator gives the string back, there are between one
    and [maxsplit + 1] parts, and the first part holds no separator.  For
    [arg.split('=', 1)] this is what makes the preset name all that follows
    the first ['=']. *)
Theorem split_parts (n : nat) (s : string) :
  String.concat (String sep "") (split sep n s) = s
  ∧ 1 ≤ length (split sep n s) ≤ S n
  ∧ (∀ p ps, split sep (S n) s = p :: ps → sep ∉ list_ascii_of_string p).
Proof.
  split_and!.
  - apply split_join.
  - apply split_length.
  - apply split_length.
  - intros p ps. apply split_head_free.
Qed.

End Splitting.

Section Prefixes.

Lemma prefix_inv (p s : string) :
  String.prefix p s = true → ∃ rest, s = p +:+ rest.
Proof.
  revert s. induction p as [|a p IH]; intros s Hp.
  - by exists s.
  - destruct s as [|b s]; [done|]. cbn in Hp.
    destruct (ascii_dec a b) as [->|]; [|done].
    destruct (IH s Hp) as [rest ->]. by exists rest.
Qed.

Lemma posix_join_absolute (dir rest : string) :
  posix_join dir (String "/" rest) = String "/" rest.
Proof. unfold posix_join. cbn. by destruct rest. Qed.

End Prefixes.

(** ** Further properties: [command] *)

(** No event of a short, explicit list is a call of [openPreset]. *)
Ltac no_open :=
  let Hin := fresh "Hin" in
  intros (? & ? & ? & ? & Hin);
  repeat (apply elem_of_cons in Hin as [?|Hin]; [discriminate|]);
  by apply elem_of_nil in Hin.

Section CommandRuns.

Variables (H : host) (C : class).

(** The run of [command] that opens a preset, as one equation. *)
Lemma command_opens_run (name dir : string) (c c' : loc) (pos : value)
    (st : state) (s1 : gmap string value) (m1 : gmap loc (gmap string value)) :
  self st !! "core" = Some (VRef c) →
  core_getPresetDir H (self st) (mem st) = (Ret (VStr dir), s1, m1) →
  os_path_exists H (os_path_join H dir name) = true →
  s1 !! "compPos" = Some pos →
  s1 !! "core" = Some (VRef c') →
  command H C ("preset=" +:+ name) st =
  (forget (core_openPreset H (os_path_join H dir name) pos name s1 m1).1.1,
   mkState (core_openPreset H (os_path_join H dir name) pos name s1 m1).1.2
           (core_openPreset H (os_path_join H dir name) pos name s1 m1).2
           (trace st ++
            [EvGetPresetDir c;
             EvPrint ("Opening " +:+ dq +:+ name +:+ dq +:+ " preset on layer "
                      +:+ py_str pos +:+ nl);
             EvOpenPreset c' (os_path_join H dir name) pos name])).
Proof.
  intros Hcore Hdir Hyes Hpos Hcore'.
  rewrite command_preset_runs.
  unfold bind at 1. unfold getPresetDir, bind, getattr. rewrite Hcore.
  unfold call. rewrite Hdir. cbn. rewrite Hyes. cbn.
  rewrite Hpos. unfold percent. rewrite format_opening.
  unfold openPreset, bind, getattr, call. cbn. rewrite Hcore'. cbn.
  rewrite Hpos. cbn.
  destruct (core_openPreset H (os_path_join H dir name) pos name s1 m1)
    as [[[v|e|code] s2] m2]; by flatten.
Qed.

(** The run of [command] that finds no file, as one equation. *)
Lemma command_missing_run (name dir : string) (c : loc)
    (st : state) (s1 : gmap string value) (m1 : gmap loc (gmap string value)) :
  self st !! "core" = Some (VRef c) →
  core_getPresetDir H (self st) (mem st) = (Ret (VStr dir), s1, m1) →
  os_path_exists H (os_path_join H dir name) = false →
  command H C ("preset=" +:+ name) st =
  (Exit (Some 1%Z),
   mkState s1 m1
           (trace st ++
            [EvGetPresetDir c;
             EvPrint ("Couldn't locate preset " +:+ dq +:+ name +:+ dq +:+ nl)])).
Proof.
  intros Hcore Hdir Hno.
  rewrite command_preset_runs.
  unfold bind, getPresetDir, bind, getattr. rewrite Hcore.
  unfold call. rewrite Hdir. cbn. rewrite Hno. cbn.
  unfold percent. rewrite format_missing. cbn. by flatten.
Qed.

(** Every run of [command] either opens a preset, in the one way the
    code has for it, or neither returns nor calls [openPreset]. *)
Lemma command_cases (arg : string) (st : state) :
  let r := command H C arg st in
  ∃ evs,
    trace (snd r) = trace st ++ evs
    ∧ ((∃ c c' dir name pos text,
          arg = "preset=" +:+ name
          ∧ os_path_exists H (os_path_join H dir name) = true
          ∧ evs = [EvGetPresetDir c; EvPrint text;
                   EvOpenPreset c' (os_path_join H dir name) pos name])
       ∨ (fst r ≠ Ret tt ∧ ¬ opens_preset evs)).
Proof.
  intros r. subst r.
  destruct (String.prefix "preset=" arg) eqn:Hpre.
  - apply prefix_inv in Hpre as [name ->].
    rewrite command_preset_runs.
    unfold bind at 1. unfold getPresetDir, bind, getattr.
    destruct (self st !! "core") as [[| | | |c]|] eqn:Hcore; cbn;
      try (exists []; rewrite app_nil_r; split; [done|right; split; [done|no_open]]).
    unfold call.
    destruct (core_getPresetDir H (self st) (mem st)) as [[[d|e|code] s1] m1];
      cbn;
      try (exists [EvGetPresetDir c]; split; [done|right; split; [done|no_open]]).
    destruct d as [| | |dir|]; cbn;
      try (exists [EvGetPresetDir c]; split; [done|right; split; [done|no_open]]).
    destruct (os_path_exists H (os_path_join H dir name)) eqn:Hex; cbn.
    + destruct (s1 !! "compPos") as [pos|] eqn:Hpos; cbn;
        [|exists [EvGetPresetDir c]; split; [done|right; split; [done|no_open]]].
      unfold percent. rewrite format_opening.
      unfold openPreset, bind, getattr, call. cbn.
      destruct (s1 !! "core") as [[| | | |c']|] eqn:Hcore'; cbn;
        try (eexists [EvGetPresetDir c; EvPrint _]; split;
             [by flatten|right; split; [done|no_open]]).
      rewrite Hpos. cbn.
      destruct (core_openPreset H (os_path_join H dir name) pos name s1 m1)
        as [[o s2] m2].
      eexists [EvGetPresetDir c; EvPrint _; EvOpenPreset c' _ pos name].
      split; [destruct o; by flatten|].
      left. eexists c, c', dir, name, pos, _. split_and!; done.
    + unfold percent. rewrite format_missing. cbn.
      eexists [EvGetPresetDir c; EvPrint _]. split; [by flatten|].
      right. split; [done|no_open].
  - rewrite (command_help_runs H C arg st Hpre).
    eexists [EvPrint _; EvCommandHelp]. split.
    + by destruct (cls_commandHelp C (self st) (mem st)) as [[o s'] m'].
    + right. split; [|no_open].
      by destruct (cls_commandHelp C (self st) (mem st)) as [[[v|e|code] s'] m'].
Qed.

(** X2: [command] calls [core.openPreset] only for an argument
    ['preset=<name>'], only with that name and the path joined from it,
    only after [os.path.exists] has answered yes for this path, and only as
    its last action. *)
Theorem command_opens_checked (arg : string) (st : state) :
  let r := command H C arg st in
  ∃ evs,
    trace (snd r) = trace st ++ evs
    ∧ ∀ c path pos name, EvOpenPreset c path pos name ∈ evs →
        arg = "preset=" +:+ name
        ∧ os_path_exists H path = true
        ∧ (∃ dir, path = os_path_join H dir name)
        ∧ (∃ before, evs = before ++ [EvOpenPreset c path pos name]
                     ∧ ¬ opens_preset before).
Proof.
  intros r. subst r.
  destruct (command_cases arg st) as (evs & Htrace & Hcases).
  exists evs. split; [exact Htrace|].
  intros c0 path0 pos0 name0 Hin.
  destruct Hcases as [(c & c' & dir & name & pos & text & -> & Hex & ->)|[_ Hno]].
  - repeat (apply elem_of_cons in Hin as [Heq|Hin]; [try discriminate|]);
      [|by apply elem_of_nil in Hin].
    injection Heq as -> -> -> ->.
    split_and!; [done|done|by exists dir|].
    exists [EvGetPresetDir c; EvPrint text]. split; [done|no_open].
  - exfalso. apply Hno. by exists c0, path0, pos0, name0.
Qed.

(** X3: [command] returns to its caller only after it has called
    [core.openPreset]; on every other path it raises or quits. *)
Theorem command_returns_opened (arg : string) (st : state) :
  fst (command H C arg st) = Ret tt →
  ∃ c c' dir name pos text,
    arg = "preset=" +:+ name
    ∧ os_path_exists H (os_path_join H dir name) = true
    ∧ trace (snd (command H C arg st)) =
      trace st ++ [EvGetPresetDir c; EvPrint text;
                   EvOpenPreset c' (os_path_join H dir name) pos name].
Proof.
  intros Hret.
  destruct (command_cases arg st) as (evs & Htrace & Hcases).
  destruct Hcases as [(c & c' & dir & name & pos & text & -> & Hex & ->)|[Hne _]].
  - by exists c, c', dir, name, pos, text.
  - done.
Qed.

(** X4: Where paths are joined as on POSIX, a preset name that starts with
    ['/'] is taken as the path itself: the preset directory plays no part
    in what is tested and opened. *)
Theorem command_absolute_name (rest dir : string) (c c' : loc) (pos : value)
    (st : state) (s1 : gmap string value) (m1 : gmap loc (gmap string value)) :
  os_path_join H = posix_join →
  self st !! "core" = Some (VRef c) →
  core_getPresetDir H (self st) (mem st) = (Ret (VStr dir), s1, m1) →
  s1 !! "compPos" = Some pos →
  s1 !! "core" = Some (VRef c') →
  let name := String "/" rest in
  let r := command H C ("preset=" +:+ name) st in
  (os_path_exists H name = false → fst r = Exit (Some 1%Z))
  ∧ (os_path_exists H name = true →
       ∃ text, trace (snd r) =
               trace st ++ [EvGetPresetDir c; EvPrint text;
                            EvOpenPreset c' name pos name]).
Proof.
  intros Hjoin Hcore Hdir Hpos Hcore' name r. subst r.
  assert (Hpath : os_path_join H dir name = name)
    by (rewrite Hjoin; apply posix_join_absolute).
  split; intros Hex.
  - rewrite (command_missing_run name dir c st s1 m1); try done.
    by rewrite Hpath.
  - rewrite (command_opens_run name dir c c' pos st s1 m1); try done.
    + rewrite Hpath. by eexists.
    + by rewrite Hpath.
Qed.

(** X5: A component straight from [__init__], asked for a preset: the
    controller and the position handed to [openPreset] are the ones given
    to the constructor, and with no file the process quits with code 1. *)
Theorem command_after_init (moduleIndex compPos : value) (c : loc)
    (name dir : string) (st0 : state) (m1 : gmap loc (gmap string value)) :
  let st := snd (__init__ moduleIndex compPos (VRef c) st0) in
  let path := os_path_join H dir name in
  let r := command H C ("preset=" +:+ name) st in
  core_getPresetDir H (self st) (mem st) = (Ret (VStr dir), self st, m1) →
  (os_path_exists H path = false →
     fst r = Exit (Some 1%Z)
     ∧ self (snd r) = self st)
  ∧ (os_path_exists H path = true →
       fst r = forget (core_openPreset H path compPos name (self st) m1).1.1
       ∧ ∃ text, trace (snd r) =
                 trace st0 ++ [EvGetPresetDir c; EvPrint text;
                               EvOpenPreset c path compPos name]).
Proof.
  intros st path r Hdir. subst r path.
  assert (Hcore : self st !! "core" = Some (VRef c))
    by (unfold st; rewrite init_runs; cbn; by simplify_map_eq).
  assert (Hpos : self st !! "compPos" = Some compPos)
    by (unfold st; rewrite init_runs; cbn; by simplify_map_eq).
  split; intros Hex.
  - by rewrite (command_missing_run name dir c st (self st) m1).
  - rewrite (command_opens_run name dir c c compPos st (self st) m1); try done.
    cbn. split; [done|]. by eexists.
Qed.

End CommandRuns.

(** ** Further properties: [update] and presets *)

Section UpdateRuns.

Variables (H : host) (C : class) (st : state).

(** X6: On an instance that holds no parent window ([widget] has not run),
    [update] raises [AttributeError] at once: nothing is drawn, saved or
    emitted, and the state is as before. *)
Theorem update_without_parent :
  (∀ p, self st !! "parent" ≠ Some (VRef p)) →
  update H C st = (Raise (AttributeError "drawPreview"), st).
Proof.
  intros Hno. unfold update, bind, drawPreview.
  destruct (self st !! "parent") as [[| | | |p]|] eqn:Hparent; try done.
  by destruct (Hno p).
Qed.

(** X7: In a class without [savePreset], the base class itself among them,
    [update] redraws the preview and then raises [AttributeError]; the
    signal is not emitted. *)
Theorem update_without_savePreset (p : loc) (v0 : value)
    (s1 : gmap string value) (m1 : gmap loc (gmap string value)) :
  self st !! "parent" = Some (VRef p) →
  parent_drawPreview H (self st) (mem st) = (Ret v0, s1, m1) →
  cls_savePreset C = None →
  update H C st =
  (Raise (AttributeError "savePreset"),
   mkState s1 m1 (trace st ++ [EvDrawPreview p])).
Proof.
  intros Hparent Hdraw Hsave.
  unfold update, bind, drawPreview, savePreset, call.
  by rewrite Hparent, Hdraw, Hsave.
Qed.

(** X8: When [savePreset] returns [None] (a method that forgot its [return]),
    a boolean, a number or a string instead of a dictionary, [update] raises
    [TypeError] at the assignment of ['preset'] and emits nothing; what
    [savePreset] did to the instance and the heap stays. *)
Theorem update_store_not_dict (p : loc) (v0 store cur : value)
    (save : hook value)
    (s1 s2 : gmap string value) (m1 m2 : gmap loc (gmap string value)) :
  self st !! "parent" = Some (VRef p) →
  parent_drawPreview H (self st) (mem st) = (Ret v0, s1, m1) →
  cls_savePreset C = Some save →
  save s1 m1 = (Ret store, s2, m2) →
  (∀ l, store ≠ VRef l) →
  s2 !! "currentPreset" = Some cur →
  update H C st =
  (Raise TypeError, mkState s2 m2 (trace st ++ [EvDrawPreview p; EvSavePreset])).
Proof.
  intros Hparent Hdraw Hsave Hstore Hnot Hcur.
  unfold update, bind, drawPreview, savePreset, call.
  rewrite Hparent, Hdraw, Hsave. cbn. unfold call, bind. cbn.
  rewrite Hstore. unfold getattr, setitem. cbn. rewrite Hcur. cbn.
  destruct store as [| | | |l]; cbn; try by flatten.
  by destruct (Hnot l).
Qed.

(** X9: In a class that does not declare [modified], [update] fails only at
    the very end: the preview is redrawn and ['preset'] is already written
    into the dictionary [savePreset] returned when [AttributeError] is
    raised. *)
Theorem update_without_signal (p l : loc) (v0 cur : value) (save : hook value)
    (s1 s2 d : gmap string value) (m1 m2 : gmap loc (gmap string value)) :
  self st !! "parent" = Some (VRef p) →
  parent_drawPreview H (self st) (mem st) = (Ret v0, s1, m1) →
  cls_savePreset C = Some save →
  save s1 m1 = (Ret (VRef l), s2, m2) →
  m2 !! l = Some d →
  s2 !! "currentPreset" = Some cur →
  cls_modified C = false →
  update H C st =
  (Raise (AttributeError "modified"),
   mkState s2 (<[l := <["preset" := cur]> d]> m2)
           (trace st ++ [EvDrawPreview p; EvSavePreset])).
Proof.
  intros Hparent Hdraw Hsave Hstore Hl Hcur Hsig.
  unfold update, bind, drawPreview, savePreset, modified_emit, call.
  rewrite Hparent, Hdraw, Hsave. cbn. unfold call, bind. cbn.
  rewrite Hstore. unfold getattr, setitem, bind, emit. cbn.
  rewrite Hcur. cbn. rewrite Hl. cbn. rewrite Hsig. by flatten.
Qed.

(** X18: A subclass that declares the signal as the docstring of
    [Component] prescribes it, [pyqtSignal(int, bool)], cannot emit:
    [update] redraws, saves, writes ['preset'] and then raises [TypeError],
    for [emit] is handed a dictionary where a [bool] is declared. *)
Theorem update_documented_signal (p l : loc) (v0 cur : value) (z : Z)
    (save : hook value)
    (s1 s2 d : gmap string value) (m1 m2 : gmap loc (gmap string value)) :
  self st !! "parent" = Some (VRef p) →
  parent_drawPreview H (self st) (mem st) = (Ret v0, s1, m1) →
  cls_savePreset C = Some save →
  save s1 m1 = (Ret (VRef l), s2, m2) →
  m2 !! l = Some d →
  s2 !! "currentPreset" = Some cur →
  cls_modified C = true →
  cls_modified_args C = [SigInt; SigBool] →
  s2 !! "compPos" = Some (VInt z) →
  (- 2 ^ 63 ≤ z < 2 ^ 63)%Z →
  update H C st =
  (Raise TypeError,
   mkState s2 (<[l := <["preset" := cur]> d]> m2)
           (trace st ++ [EvDrawPreview p; EvSavePreset])).
Proof.
  intros Hparent Hdraw Hsave Hstore Hl Hcur Hsig Hargs Hpos Hz.
  unfold update, bind, drawPreview, savePreset, modified_emit, call.
  rewrite Hparent, Hdraw, Hsave. cbn. unfold call, bind. cbn.
  rewrite Hstore. unfold getattr, setitem, bind, emit. cbn.
  rewrite Hcur. cbn. rewrite Hl. cbn. rewrite Hsig. cbn.
  rewrite Hpos. cbn. rewrite Hargs, convert_args_int_bool by done.
  by flatten.
Qed.

Section Succeeds.

Variables (p l : loc) (v0 cur pos pos' : value) (save : hook value).
Variables (s1 s2 d : gmap string value) (m1 m2 : gmap loc (gmap string value)).

Hypothesis Hparent : self st !! "parent" = Some (VRef p).
Hypothesis Hdraw : parent_drawPreview H (self st) (mem st) = (Ret v0, s1, m1).
Hypothesis Hsave : cls_savePreset C = Some save.
Hypothesis Hstore : save s1 m1 = (Ret (VRef l), s2, m2).
Hypothesis Hl : m2 !! l = Some d.
Hypothesis Hcur : s2 !! "currentPreset" = Some cur.
Hypothesis Hsig : cls_modified C = true.
Hypothesis Hpos : s2 !! "compPos" = Some pos.
Hypothesis Hargs :
  convert_args (<[l := <["preset" := cur]> d]> m2) (cls_modified_args C)
               [pos; VRef l] = inr [pos'; VRef l].

(** X10: Between the return of [savePreset] and the slots, a run of
    [update] that emits writes one entry and nothing else: the slots are
    handed the instance as [savePreset] left it and a heap in which the
    returned dictionary has ['preset'] set (an earlier value replaced),
    every other key as it was, and every other dictionary untouched.
    Where the slots leave instance and heap alone, this is the state
    [update] ends in. *)
Theorem update_writes_only_preset :
  ∃ m' d',
    update H C st =
      (forget (modified_slots H pos' (VRef l) s2 m').1.1,
       mkState (modified_slots H pos' (VRef l) s2 m').1.2
               (modified_slots H pos' (VRef l) s2 m').2
               (trace st ++ [EvDrawPreview p; EvSavePreset;
                             EvEmitModified pos' (VRef l)]))
    ∧ m' !! l = Some d'
    ∧ d' !! "preset" = Some cur
    ∧ (∀ k, k ≠ "preset" → d' !! k = d !! k)
    ∧ (∀ l', l' ≠ l → m' !! l' = m2 !! l')
    ∧ (∀ v, modified_slots H pos' (VRef l) s2 m' = (Ret v, s2, m') →
         fst (update H C st) = Ret tt
         ∧ self (snd (update H C st)) = s2
         ∧ mem (snd (update H C st)) = m').
Proof.
  exists (<[l := <["preset" := cur]> d]> m2), (<["preset" := cur]> d).
  rewrite (update_runs H C st p l v0 cur pos pos' save s1 s2 d m1 m2) by done.
  rewrite !lookup_insert_eq.
  split_and!; try done.
  - intros k Hk. by rewrite lookup_insert_ne.
  - intros l' Hne. by rewrite lookup_insert_ne.
  - intros v ->. done.
Qed.

(** X11: Saving and loading agree: when the slots keep the preset name
    where [update] put it (in [currentPreset] and under ['preset'] in the
    emitted dictionary), handing that dictionary to [loadPreset], with no
    name, returns and leaves the state exactly as [update] left it. *)
Theorem update_then_loadPreset (d3 : gmap string value) :
  let st' := snd (update H C st) in
  self st' !! "currentPreset" = Some cur →
  mem st' !! l = Some d3 →
  d3 !! "preset" = Some cur →
  EvEmitModified pos' (VRef l) ∈ trace st'
  ∧ loadPreset (VRef l) VNone st' = (Ret tt, st').
Proof.
  intros st'. subst st'.
  rewrite (update_runs H C st p l v0 cur pos pos' save s1 s2 d m1 m2) by done.
  cbn. intros Hcur3 Hl3 Hd3. split.
  - apply elem_of_app. right. do 2 (apply elem_of_cons; right).
    apply elem_of_cons. by left.
  - unfold loadPreset, bind.
    destruct (decide (VNone = VNone)) as [_|Hne]; [|done].
    unfold getitem, setattr. cbn. rewrite Hl3, Hd3. cbn.
    by rewrite (insert_id _ "currentPreset" cur Hcur3).
Qed.

End Succeeds.

End UpdateRuns.

Section LoadThenUpdate.

Variables (H : host) (C : class).

(** X12: Loading and saving agree: after [loadPreset] with a name, an
    [update] whose hooks leave [currentPreset] alone, in a class whose
    signal takes the position and a dictionary, hands the slots a
    dictionary in which this very name stands under ['preset']. *)
Theorem loadPreset_then_update (presetDict presetName : value) (st : state)
    (p l : loc) (v0 pos pos' : value) (save : hook value)
    (s1 s2 d : gmap string value) (m1 m2 : gmap loc (gmap string value)) :
  let st1 := snd (loadPreset presetDict presetName st) in
  let m' := <[l := <["preset" := presetName]> d]> m2 in
  presetName ≠ VNone →
  self st !! "parent" = Some (VRef p) →
  parent_drawPreview H (self st1) (mem st1) = (Ret v0, s1, m1) →
  cls_savePreset C = Some save →
  save s1 m1 = (Ret (VRef l), s2, m2) →
  m2 !! l = Some d →
  s2 !! "currentPreset" = self st1 !! "currentPreset" →
  cls_modified C = true →
  s2 !! "compPos" = Some pos →
  convert_args m' (cls_modified_args C) [pos; VRef l] = inr [pos'; VRef l] →
  update H C st1 =
  (forget (modified_slots H pos' (VRef l) s2 m').1.1,
   mkState (modified_slots H pos' (VRef l) s2 m').1.2
           (modified_slots H pos' (VRef l) s2 m').2
           (trace st ++ [EvDrawPreview p; EvSavePreset;
                         EvEmitModified pos' (VRef l)])).
Proof.
  intros st1 m' Hname Hparent Hdraw Hsave Hstore Hl Hkeep Hsig Hpos Hargs.
  assert (Hst1 : st1 = mkState (<["currentPreset" := presetName]> (self st))
                               (mem st) (trace st)).
  { unfold st1, loadPreset, bind.
    by destruct (decide (presetName = VNone)). }
  assert (Hcur : s2 !! "currentPreset" = Some presetName).
  { rewrite Hkeep, Hst1. cbn. by rewrite lookup_insert_eq. }
  assert (Hparent1 : self st1 !! "parent" = Some (VRef p)).
  { rewrite Hst1. cbn. by rewrite lookup_insert_ne. }
  rewrite (update_runs H C st1 p l v0 presetName pos pos' save s1 s2 d m1 m2)
    by done.
  by rewrite Hst1.
Qed.

End LoadThenUpdate.

(** ** Further properties: attributes *)

Section Attributes.

(** [preFrameRender] over plain names in closed form: the keyword
    arguments laid over the attributes the instance had. *)
Lemma preFrameRender_runs (kwargs : list (string * value)) (st : state) :
  NoDup kwargs.*1 →
  (∀ k, k ∈ kwargs.*1 → k ∉ ("self" :: plain_exceptions)) →
  preFrameRender kwargs st =
  (Ret tt, mkState (list_to_map kwargs ∪ self st) (mem st) (trace st)).
Proof.
  intros Hnd Hplain. unfold preFrameRender.
  rewrite decide_False.
  2:{ intros Hself. destruct (Hplain _ Hself). apply elem_of_cons. by left. }
  destruct (set_items_plain kwargs st) as (s' & -> & Hout & Hin).
  { intros k Hk. specialize (Hplain k Hk).
    apply not_elem_of_cons in Hplain. tauto. }
  do 2 f_equal. apply map_eq. intros k.
  destruct ((list_to_map kwargs : gmap string value) !! k) as [v|] eqn:Hk.
  - rewrite (lookup_union_Some_l _ _ _ _ Hk). apply Hin; [done|].
    by apply elem_of_list_to_map.
  - rewrite (lookup_union_r _ _ _ Hk). apply Hout.
    by apply not_elem_of_list_to_map.
Qed.

(** X13: For keyword arguments none of which is named [self],
    [__class__], [__weakref__] or [__dict__], [preFrameRender] returns and
    leaves the keyword arguments laid over the attributes of the instance;
    a keyword called like a field of the base class replaces that field,
    as [canceled] shows.  Without keyword arguments it changes nothing. *)
Theorem preFrameRender_overlay (kwargs : list (string * value)) (st : state) :
  NoDup kwargs.*1 →
  (∀ k, k ∈ kwargs.*1 →
        k ∉ ["self"; "__class__"; "__weakref__"; "__dict__"]%string) →
  preFrameRender kwargs st =
    (Ret tt, mkState (list_to_map kwargs ∪ self st) (mem st) (trace st))
  ∧ preFrameRender [] st = (Ret tt, st)
  ∧ (∀ v, ("canceled"%string, v) ∈ kwargs →
          self (snd (preFrameRender kwargs st)) !! "canceled" = Some v)
  ∧ (∀ v, preFrameRender [("canceled"%string, v)] st = setattr "canceled" v st).
Proof.
  intros Hnd Hplain. rewrite (preFrameRender_runs kwargs st Hnd Hplain).
  split_and!.
  - done.
  - by destruct st.
  - intros v Hv. cbn. apply lookup_union_Some_l.
    by apply elem_of_list_to_map.
  - intros v. unfold preFrameRender. rewrite decide_False.
    + apply set_items_single. apply (bool_decide_unpack _). by vm_compute.
    + cbn. intros Hin. apply elem_of_cons in Hin as [?|Hin]; [done|].
      by apply elem_of_nil in Hin.
Qed.

(** X14: Two calls of [preFrameRender] with keyword arguments as in X13
    leave the second set laid over the first, laid over the attributes: the
    later call wins on a shared name.  A call repeated with the same
    arguments changes nothing more. *)
Theorem preFrameRender_twice (k1 k2 : list (string * value)) (st : state) :
  NoDup k1.*1 → NoDup k2.*1 →
  (∀ k, k ∈ k1.*1 ++ k2.*1 →
        k ∉ ["self"; "__class__"; "__weakref__"; "__dict__"]%string) →
  preFrameRender k2 (snd (preFrameRender k1 st)) =
    (Ret tt,
     mkState (list_to_map k2 ∪ (list_to_map k1 ∪ self st)) (mem st) (trace st))
  ∧ preFrameRender k1 (snd (preFrameRender k1 st)) = preFrameRender k1 st.
Proof.
  intros Hnd1 Hnd2 Hplain.
  assert (Hp1 : ∀ k, k ∈ k1.*1 → k ∉ ("self" :: plain_exceptions))
    by (intros k Hk; apply Hplain, elem_of_app; by left).
  assert (Hp2 : ∀ k, k ∈ k2.*1 → k ∉ ("self" :: plain_exceptions))
    by (intros k Hk; apply Hplain, elem_of_app; by right).
  rewrite !preFrameRender_runs by done. cbn. split; [done|].
  by rewrite (assoc_L (∪)), (idemp_L (∪)).
Qed.

(** X15: [cancel] and [reset] as a pair: on an instance that is not canceled,
    [reset] after [cancel] gives back the very state; in general [reset]
    wipes out an earlier [cancel], and a second [cancel] adds nothing to
    the first. *)
Theorem cancel_reset_undo (st : state) :
  (self st !! "canceled" = Some (VBool false) →
     snd (reset (snd (cancel st))) = st)
  ∧ reset (snd (cancel st)) = reset st
  ∧ cancel (snd (cancel st)) = cancel st
  ∧ cancel (snd (reset st)) = cancel st.
Proof.
  rewrite !cancel_runs, !reset_runs. cbn. split_and!.
  - intros Hfalse. rewrite insert_insert_eq.
    rewrite (insert_id _ _ _ Hfalse). by destruct st.
  - by rewrite insert_insert_eq.
  - by rewrite insert_insert_eq.
  - by rewrite insert_insert_eq.
Qed.

(** X16: [__init__] touches its five fields only: an attribute of another name,
    set by a subclass before it calls [super().__init__], keeps its value.
    Run again with the same arguments it changes nothing. *)
Theorem init_keeps_others (moduleIndex compPos core : value) (st : state) :
  (∀ k, k ∉ ["currentPreset"; "canceled"; "moduleIndex"; "compPos"; "core"]%string →
        self (snd (__init__ moduleIndex compPos core st)) !! k = self st !! k)
  ∧ __init__ moduleIndex compPos core
      (snd (__init__ moduleIndex compPos core st))
    = __init__ moduleIndex compPos core st.
Proof.
  rewrite !init_runs. cbn. split.
  - intros k Hk. rewrite !not_elem_of_cons in Hk.
    destruct Hk as (? & ? & ? & ? & ? & _).
    by rewrite !lookup_insert_ne.
  - do 2 f_equal. apply map_eq. intros k.
    destruct (decide (k = "core")) as [->|]; [by rewrite !lookup_insert_eq|].
    rewrite (lookup_insert_ne _ "core") by done.
    rewrite (lookup_insert_ne (<["compPos" := _]> _) "core") by done.
    destruct (decide (k = "compPos")) as [->|]; [by rewrite !lookup_insert_eq|].
    rewrite (lookup_insert_ne _ "compPos") by done.
    rewrite (lookup_insert_ne (<["moduleIndex" := _]> _) "compPos") by done.
    destruct (decide (k = "moduleIndex")) as [->|]; [by rewrite !lookup_insert_eq|].
    rewrite (lookup_insert_ne _ "moduleIndex") by done.
    rewrite (lookup_insert_ne (<["canceled" := _]> _) "moduleIndex") by done.
    destruct (decide (k = "canceled")) as [->|]; [by rewrite !lookup_insert_eq|].
    rewrite (lookup_insert_ne _ "canceled") by done.
    rewrite (lookup_insert_ne (<["currentPreset" := _]> _) "canceled") by done.
    destruct (decide (k = "currentPreset")) as [->|]; [by rewrite !lookup_insert_eq|].
    by rewrite !lookup_insert_ne.
Qed.

(** X17: [loadPreset] without a name needs a dictionary: given [None], a
    boolean, a number or a string instead, it raises [TypeError], not
    [KeyError], and leaves the instance as it was.  With a name, the same
    argument does no harm, for it is never looked at. *)
Theorem loadPreset_not_subscriptable (presetDict presetName : value) (st : state) :
  (∀ l, presetDict ≠ VRef l) →
  loadPreset presetDict VNone st = (Raise TypeError, st)
  ∧ (presetName ≠ VNone →
       loadPreset presetDict presetName st =
       (Ret tt, mkState (<["currentPreset" := presetName]> (self st))
                        (mem st) (trace st))).
Proof.
  intros Hnot. unfold loadPreset, bind. split.
  - destruct (decide (VNone = VNone)) as [_|?]; [|done].
    destruct presetDict as [| | | |l]; try done. by destruct (Hnot l).
  - intros Hname. by destruct (decide (presetName = VNone)).
Qed.

End Attributes.

(** ** The further properties at work on the scenario *)

Section MoreWitnesses.

Import Scenario.

Lemma split_parts_witness :
  split "="%char 1 "preset=a=b" = ["preset"; "a=b"]%string
  ∧ "="%char ∉ list_ascii_of_string "preset".
Proof.
  split; [reflexivity|].
  apply (proj2 (proj2 (split_parts "="%char 0 "preset=a=b")) "preset"%string
               ["a=b"%string]).
  reflexivity.
Defined.

Lemma command_opens_checked_witness :
  EvOpenPreset 1%positive "/presets/a=b" (VInt 0) "a=b"
    ∈ trace (snd (command desk sub "preset=a=b" made))
  ∧ os_path_exists desk "/presets/a=b" = true.
Proof.
  split; [vm_compute; do 2 (apply elem_of_cons; right); apply elem_of_cons; by left|].
  destruct (command_opens_checked desk sub "preset=a=b" made)
    as (evs & Htrace & Hopen).
  cbn in Htrace. subst evs.
  apply (Hopen 1%positive "/presets/a=b"%string (VInt 0) "a=b"%string).
  do 2 (apply elem_of_cons; right). apply elem_of_cons. by left.
Defined.

Lemma command_returns_opened_witness :
  fst (command desk sub "preset=a=b" made) = Ret tt
  ∧ ∃ c c' dir name pos text,
      "preset=a=b"%string = "preset=" +:+ name
      ∧ os_path_exists desk (os_path_join desk dir name) = true
      ∧ trace (snd (command desk sub "preset=a=b" made)) =
        trace made ++ [EvGetPresetDir c; EvPrint text;
                       EvOpenPreset c' (os_path_join desk dir name) pos name].
Proof.
  split; [reflexivity|].
  apply (command_returns_opened desk sub "preset=a=b" made). reflexivity.
Defined.

Lemma command_absolute_name_witness :
  os_path_join desk = posix_join
  ∧ os_path_exists desk "/presets/a=b" = true
  ∧ ∃ text, trace (snd (command desk sub "preset=/presets/a=b" made)) =
            [EvGetPresetDir 1%positive; EvPrint text;
             EvOpenPreset 1%positive "/presets/a=b" (VInt 0) "/presets/a=b"].
Proof.
  split; [reflexivity|]. split; [reflexivity|].
  assert (W : _) by
    (refine (command_absolute_name desk sub "presets/a=b" "/presets"
               1%positive 1%positive (VInt 0) made (self made) (mem made)
               _ _ _ _ _); reflexivity).
  cbv zeta in W. destruct W as [_ W]. apply W. reflexivity.
Defined.

Lemma command_after_init_witness :
  core_getPresetDir desk (self made) (mem made) = (Ret (VStr "/presets"), self made, ∅)
  ∧ os_path_exists desk (os_path_join desk "/presets" "nope") = false
  ∧ fst (command desk sub "preset=nope" made) = Exit (Some 1%Z).
Proof.
  split; [reflexivity|]. split; [reflexivity|].
  assert (W : _) by
    (refine (command_after_init desk sub (VInt 3) (VInt 0) 1%positive
               "nope" "/presets" fresh ∅ _); reflexivity).
  cbv zeta in W. destruct W as [W _]. apply W. reflexivity.
Defined.

Lemma update_without_parent_witness :
  self made !! "parent" = None
  ∧ update desk sub made = (Raise (AttributeError "drawPreview"), made).
Proof.
  split; [reflexivity|].
  apply (update_without_parent desk sub made). intros p. discriminate.
Defined.

Lemma update_without_savePreset_witness :
  cls_savePreset base = None
  ∧ update desk base shown =
    (Raise (AttributeError "savePreset"),
     mkState (self shown) (mem shown) [EvDrawPreview 2%positive]).
Proof.
  split; [reflexivity|].
  apply (update_without_savePreset desk base shown 2%positive VNone
           (self shown) (mem shown)); reflexivity.
Defined.

Lemma update_store_not_dict_witness :
  self shown !! "currentPreset" = Some VNone
  ∧ update desk forgetful shown =
    (Raise TypeError,
     mkState (self shown) (mem shown) [EvDrawPreview 2%positive; EvSavePreset]).
Proof.
  split; [reflexivity|].
  apply (update_store_not_dict desk forgetful shown 2%positive VNone VNone VNone
           (fun s m => (Ret VNone, s, m))
           (self shown) (self shown) (mem shown) (mem shown));
    first [reflexivity | intros l; discriminate].
Defined.

Lemma update_without_signal_witness :
  cls_modified unsignalled = false
  ∧ update desk unsignalled stored =
    (Raise (AttributeError "modified"),
     mkState (self stored)
             (<[7%positive := <["preset" := VNone]> {[ "size" := VInt 12 ]}]>
                (<[7%positive := {[ "size" := VInt 12 ]}]> (mem stored)))
             [EvDrawPreview 2%positive; EvSavePreset]).
Proof.
  split; [reflexivity|].
  apply (update_without_signal desk unsignalled stored 2%positive 7%positive
           VNone VNone save (self stored) (self stored) {[ "size" := VInt 12 ]}
           (mem stored) (<[7%positive := {[ "size" := VInt 12 ]}]> (mem stored)));
    reflexivity.
Defined.

Lemma update_writes_only_preset_witness :
  fst (update desk sub stored) = Ret tt
  ∧ mem (snd (update desk sub stored)) !! 8%positive = mem stored !! 8%positive
  ∧ self (snd (update desk sub stored)) = self stored.
Proof.
  destruct (update_writes_only_preset desk sub stored 2%positive 7%positive
              VNone VNone (VInt 0) (VInt 0) save (self stored) (self stored)
              {[ "size" := VInt 12 ]} (mem stored)
              (<[7%positive := {[ "size" := VInt 12 ]}]> (mem stored))
              eq_refl eq_refl eq_refl eq_refl eq_refl eq_refl eq_refl eq_refl
              eq_refl)
    as (m' & d' & _ & _ & _ & _ & Wheap & Wquiet).
  destruct (Wquiet VNone eq_refl) as (Wret & Wself & Wmem).
  split_and!; [exact Wret| |exact Wself].
  rewrite Wmem. etransitivity; [apply (Wheap 8%positive); discriminate|].
  reflexivity.
Defined.

Lemma update_then_loadPreset_witness :
  mem (snd (update filing sub stored)) !! 7%positive
    = Some (<["layer" := VInt 0]> (<["preset" := VNone]> {[ "size" := VInt 12 ]}))
  ∧ loadPreset (VRef 7%positive) VNone (snd (update filing sub stored))
    = (Ret tt, snd (update filing sub stored)).
Proof.
  split; [reflexivity|].
  apply (update_then_loadPreset filing sub stored 2%positive 7%positive
           VNone VNone (VInt 0) (VInt 0) save (self stored) (self stored)
           {[ "size" := VInt 12 ]} (mem stored)
           (<[7%positive := {[ "size" := VInt 12 ]}]> (mem stored))
           eq_refl eq_refl eq_refl eq_refl eq_refl eq_refl eq_refl eq_refl
           eq_refl
           (<["layer" := VInt 0]> (<["preset" := VNone]> {[ "size" := VInt 12 ]})));
    reflexivity.
Defined.

Lemma loadPreset_then_update_witness :
  VStr "mine" ≠ VNone
  ∧ mem (snd (update filing sub
                (snd (loadPreset (VRef 8%positive) (VStr "mine") stored))))
      !! 7%positive
    = Some (<["layer" := VInt 0]>
              (<["preset" := VStr "mine"]> {[ "size" := VInt 12 ]})).
Proof.
  split; [discriminate|].
  rewrite (loadPreset_then_update filing sub (VRef 8%positive) (VStr "mine") stored
             2%positive 7%positive VNone (VInt 0) (VInt 0) save
             (self (snd (loadPreset (VRef 8%positive) (VStr "mine") stored)))
             (self (snd (loadPreset (VRef 8%positive) (VStr "mine") stored)))
             {[ "size" := VInt 12 ]} (mem stored)
             (<[7%positive := {[ "size" := VInt 12 ]}]> (mem stored)));
    try reflexivity.
  discriminate.
Defined.

Lemma update_documented_signal_witness :
  cls_modified_args documented = [SigInt; SigBool]
  ∧ update desk documented stored =
    (Raise TypeError,
     mkState (self stored)
             (<[7%positive := <["preset" := VNone]> {[ "size" := VInt 12 ]}]>
                (<[7%positive := {[ "size" := VInt 12 ]}]> (mem stored)))
             [EvDrawPreview 2%positive; EvSavePreset]).
Proof.
  split; [reflexivity|].
  apply (update_documented_signal desk documented stored 2%positive 7%positive
           VNone VNone 0%Z save (self stored) (self stored)
           {[ "size" := VInt 12 ]} (mem stored)
           (<[7%positive := {[ "size" := VInt 12 ]}]> (mem stored)));
    first [reflexivity | lia].
Defined.

Lemma preFrameRender_overlay_witness :
  NoDup kwargs.*1
  ∧ ("canceled"%string, VBool true) ∈ kwargs
  ∧ self (snd (preFrameRender kwargs shown)) !! "canceled" = Some (VBool true).
Proof.
  assert (Hnd : NoDup kwargs.*1)
    by (apply (bool_decide_unpack _); by vm_compute).
  assert (Hin : ("canceled"%string, VBool true) ∈ kwargs)
    by (do 2 (apply elem_of_cons; right); apply elem_of_cons; by left).
  split_and!; [exact Hnd|exact Hin|].
  refine (proj1 (proj2 (proj2 (preFrameRender_overlay kwargs shown Hnd _)))
            (VBool true) Hin).
  intros k Hk.
  repeat (apply elem_of_cons in Hk as [->|Hk];
          [apply (bool_decide_unpack _); by vm_compute|]).
  by apply elem_of_nil in Hk.
Defined.

Lemma preFrameRender_twice_witness :
  NoDup kwargs.*1
  ∧ preFrameRender kwargs (snd (preFrameRender kwargs shown))
    = preFrameRender kwargs shown.
Proof.
  assert (Hnd : NoDup kwargs.*1)
    by (apply (bool_decide_unpack _); by vm_compute).
  split; [exact Hnd|].
  refine (proj2 (preFrameRender_twice kwargs kwargs shown Hnd Hnd _)).
  intros k Hk.
  repeat (apply elem_of_cons in Hk as [->|Hk];
          [apply (bool_decide_unpack _); by vm_compute|]).
  by apply elem_of_nil in Hk.
Defined.

Lemma cancel_reset_undo_witness :
  self made !! "canceled" = Some (VBool false)
  ∧ snd (reset (snd (cancel made))) = made.
Proof.
  split; [reflexivity|].
  apply (proj1 (cancel_reset_undo made)). reflexivity.
Defined.

Lemma init_keeps_others_witness :
  ("parent"%string ∉ ["currentPreset"; "canceled"; "moduleIndex"; "compPos"; "core"]%string)
  ∧ self (snd (__init__ (VInt 4) (VInt 1) (VRef 1%positive) shown)) !! "parent"
    = Some (VRef 2%positive).
Proof.
  assert (Hk : "parent"%string
               ∉ ["currentPreset"; "canceled"; "moduleIndex"; "compPos"; "core"]%string).
  { rewrite !not_elem_of_cons. split_and!; try discriminate. apply not_elem_of_nil. }
  split; [exact Hk|].
  rewrite (proj1 (init_keeps_others (VInt 4) (VInt 1) (VRef 1%positive) shown)
             "parent"%string Hk).
  reflexivity.
Defined.

Lemma loadPreset_not_subscriptable_witness :
  loadPreset VNone VNone stored = (Raise TypeError, stored)
  ∧ loadPreset (VInt 5) VNone stored = (Raise TypeError, stored).
Proof.
  split.
  - apply (loadPreset_not_subscriptable VNone VNone stored). intros l. discriminate.
  - apply (loadPreset_not_subscriptable (VInt 5) VNone stored). intros l. discriminate.
Defined.

End MoreWitnesses.
